(** * Job lifecycle of the Sparv annotation backend (mink/jobs.py)

    A shallow embedding of [mink.jobs]: the [Status] enumeration and its
    classification predicates, the [Job] record with its persistence
    ([__str__], [save], [remove], [get_job], [load_from_str]), the remote
    operations ([sync_to_sparv], [run_sparv], [install_korp], [abort_sparv],
    [process_running], [sync_results], [clean], [clean_export]), the parser
    of the remote output ([get_output]) and the elapsed-time view
    ([seconds_taken]).

    Conventions of the embedding.
    - Python text is a [string] of characters with code points below 256;
      [bytes.decode()] is the identity on it.
    - An ISO-8601 timestamp text is represented by the instant it denotes,
      an integer number of microseconds; a duration in seconds (a Python
      float obtained from [timedelta.total_seconds()]) by its number of
      microseconds.  Only the order of durations is used by the code.
    - A JSON text is represented by the JSON value it denotes, an object
      by its members in the order of the text; [json.loads] makes the dict
      of them ([loads]).
    - A method of [Job] is a function of the in-memory object and of the
      world (cache, backup files, queue, history of outside calls); it
      returns a value or raises, and the mutations done before a raise
      stay. *)

From Stdlib Require Import ZArith Bool List Ascii String Lia Permutation.
From stdpp Require Import base option gmap strings.
Import ListNotations.

Set Warnings "-register-all".
Local Open Scope string_scope.
Local Open Scope Z_scope.

(** ** Status *)

Module Status.

(** The members of [class Status(IntEnum)], in definition order. *)
Inductive t : Type :=
| none | syncing_corpus | waiting | annotating | done_annotating
| syncing_results | done_syncing | waiting_install | installing
| done_installing | error | aborted.

#[global] Instance eq_dec : EqDecision t.
Proof. solve_decision. Defined.

Definition eqb (a b : t) : bool := bool_decide (a = b).

(** Definition order of the members: [__new__] numbers them with
    [next(_status_count)]. *)
Definition members : list t :=
  [none; syncing_corpus; waiting; annotating; done_annotating;
   syncing_results; done_syncing; waiting_install; installing;
   done_installing; error; aborted].

(** [member.name] *)
Definition name (s : t) : string :=
  match s with
  | none => "none"
  | syncing_corpus => "syncing_corpus"
  | waiting => "waiting"
  | annotating => "annotating"
  | done_annotating => "done_annotating"
  | syncing_results => "syncing_results"
  | done_syncing => "done_syncing"
  | waiting_install => "waiting_install"
  | installing => "installing"
  | done_installing => "done_installing"
  | error => "error"
  | aborted => "aborted"
  end.

(** [member.value] when the members are defined in the order [order]:
    the position of the member in that order. *)
Fixpoint index_of (order : list t) (s : t) : Z :=
  match order with
  | [] => 0
  | m :: rest => if eqb m s then 0 else 1 + index_of rest s
  end.

Definition value (s : t) : Z := index_of members s.

(** [getattr(Status, name)] restricted to member names, on the members
    defined in the order [order]. *)
Definition lookup_name (order : list t) (n : string) : option t :=
  List.find (fun s => String.eqb (name s) n) order.

Definition of_name (n : string) : option t := lookup_name members n.

(** [status in [a; b; ...]] *)
Definition among (l : list t) (s : t) : bool := existsb (eqb s) l.

Definition is_active : t -> bool :=
  among [syncing_corpus; waiting; annotating; waiting_install; installing].
Definition is_inactive : t -> bool :=
  among [done_syncing; done_installing; error; aborted].
Definition is_syncing : t -> bool := among [syncing_corpus; syncing_results].
Definition is_waiting : t -> bool := among [waiting; waiting_install].
Definition is_running : t -> bool := among [annotating; installing].
Definition is_done_processing : t -> bool :=
  among [done_annotating; done_syncing; done_installing].
Definition has_process_output : t -> bool :=
  among [annotating; done_annotating; syncing_results; done_syncing;
         installing; done_installing; error].

End Status.

(** ** Text primitives of Python used by the parser *)

Module Text.

Definition code (c : ascii) : N := N_of_ascii c.

(** [str.isspace] and the class [\s] on code points below 256. *)
Definition is_space (c : ascii) : bool :=
  let n := code c in
  ((9 <=? n) && (n <=? 13) || (28 <=? n) && (n <=? 32)
   || (n =? 133) || (n =? 160))%N.

(** The class [\d] on code points below 256. *)
Definition is_digit (c : ascii) : bool :=
  let n := code c in ((48 <=? n) && (n <=? 57))%N.

(** The class [[A-Z]]. *)
Definition is_upper (c : ascii) : bool :=
  let n := code c in ((65 <=? n) && (n <=? 90))%N.

Definition is_newline (c : ascii) : bool := (code c =? 10)%N.

Definition is_empty (s : string) : bool :=
  match s with EmptyString => true | _ => false end.

Fixpoint lstrip (s : string) : string :=
  match s with
  | String c r => if is_space c then lstrip r else s
  | EmptyString => EmptyString
  end.

Fixpoint rstrip (s : string) : string :=
  match s with
  | String c r =>
      let r' := rstrip r in
      if is_empty r' && is_space c then EmptyString else String c r'
  | EmptyString => EmptyString
  end.

(** [s.strip()] *)
Definition strip (s : string) : string := rstrip (lstrip s).

(** [s.split("\n")]: never empty, one more piece than newlines. *)
Fixpoint split_lines (s : string) : list string :=
  match s with
  | EmptyString => [EmptyString]
  | String c r =>
      if is_newline c then EmptyString :: split_lines r
      else match split_lines r with
           | l :: ls => String c l :: ls
           | [] => [String c EmptyString]
           end
  end.

Definition newline : string := String (ascii_of_N 10) EmptyString.

(** ["\n".join(l)] *)
Fixpoint join_lines (l : list string) : string :=
  match l with
  | [] => EmptyString
  | [x] => x
  | x :: rest => x ++ newline ++ join_lines rest
  end.

(** [s.startswith(p)] *)
Fixpoint startswith (p s : string) : bool :=
  match p, s with
  | EmptyString, _ => true
  | String a p', String b s' => Ascii.eqb a b && startswith p' s'
  | String _ _, EmptyString => false
  end.

(** [s.endswith(p)] *)
Fixpoint endswith (p s : string) : bool :=
  String.eqb p s ||
  match s with
  | String _ s' => endswith p s'
  | EmptyString => false
  end.

(** [s[n:]] *)
Fixpoint drop (n : nat) (s : string) : string :=
  match n, s with
  | O, _ => s
  | S n', String _ r => drop n' r
  | S _, EmptyString => EmptyString
  end.

(** Longest prefix of characters in the class [p], and the rest. *)
Fixpoint span (p : ascii -> bool) (s : string) : string * string :=
  match s with
  | String c r =>
      if p c then let '(a, b) := span p r in (String c a, b)
      else (EmptyString, s)
  | EmptyString => (EmptyString, EmptyString)
  end.

(** [n] characters of the class [p] at the start of [s]: what follows. *)
Fixpoint skip (p : ascii -> bool) (n : nat) (s : string) : option string :=
  match n, s with
  | O, _ => Some s
  | S n', String c r => if p c then skip p n' r else None
  | S _, EmptyString => None
  end.

Fixpoint last_char (s : string) : string :=
  match s with
  | EmptyString => EmptyString
  | String c EmptyString => s
  | String _ r => last_char r
  end.

End Text.

(** ** The regular expressions of [get_output]

    Each matcher is [re.match] (anchored at the start of the line) for one
    pattern; lines come from [split("\n")] and hold no newline, so [.]
    matches every character of a line. *)

Module Regex.
Import Text.

Definition colon (c : ascii) : bool := (code c =? 58)%N.
Definition blank (c : ascii) : bool := (code c =? 32)%N.

(** [\d\d:\d\d:\d\d]: what follows the time stamp. *)
Definition timestamp (s : string) : option string :=
  match skip is_digit 2 s with
  | Some s1 =>
      match skip colon 1 s1 with
      | Some s2 =>
          match skip is_digit 2 s2 with
          | Some s3 =>
              match skip colon 1 s3 with
              | Some s4 => skip is_digit 2 s4
              | None => None
              end
          | None => None
          end
      | None => None
      end
  | None => None
  end.

(** [(?:\d\d:\d\d:\d\d|\s{8})]: the two alternatives exclude each other
    on the first character. *)
Definition line_head (s : string) : option string :=
  match timestamp s with
  | Some r => Some r
  | None => skip is_space 8 s
  end.

(** [(?:\d\d:\d\d:\d\d|\s{8}) ([A-Z]+)\s+(.+)$]: groups 1 and 2.
    [[A-Z]+] takes the whole run of capitals (a shorter run would be
    followed by a capital, not by white space); [\s+] takes the whole run
    of white space unless nothing follows it, in which case it gives its
    last character back to [(.+)]. *)
Definition tagged (line : string) : option (string * string) :=
  match line_head line with
  | Some head =>
      match skip blank 1 head with
      | Some body =>
          let '(tag, after_tag) := span is_upper body in
          let '(gap, msg) := span is_space after_tag in
          if is_empty tag then None
          else if is_empty gap then None
          else if negb (is_empty msg) then Some (tag, msg)
          else match gap with
               | String _ (String _ _) => Some (tag, last_char gap)
               | _ => None
               end
      | None => None
      end
  | None => None
  end.

(** [\s{8,}.+]: eight white-space characters and one more character. *)
Definition continuation (line : string) : bool :=
  match skip is_space 8 line with
  | Some r => negb (is_empty r)
  | None => false
  end.

(** [real \d.+] *)
Definition real_time (line : string) : bool :=
  startswith "real " line &&
  match drop 5 line with
  | String d (String _ _) => is_digit d
  | _ => false
  end.

(** [user|sys \d.+]: the alternation splits the whole pattern, so every
    line that starts with [user] matches. *)
Definition user_sys (line : string) : bool :=
  startswith "user" line ||
  startswith "sys " line &&
  match drop 4 line with
  | String d (String _ _) => is_digit d
  | _ => false
  end.

End Regex.

(** [int(text)] for decimal text: white space around, an optional sign,
    digits with single underscores between them.  [None] is [ValueError]. *)
Module PyInt.
Import Text.

Definition underscore (c : ascii) : bool := (code c =? 95)%N.
Definition digit_value (c : ascii) : Z := Z.of_N (code c) - 48.

(** [prev_digit]: the previous character was a digit. *)
Fixpoint digits (acc : Z) (prev_digit : bool) (s : string) : option Z :=
  match s with
  | EmptyString => if prev_digit then Some acc else None
  | String c r =>
      if is_digit c then digits (10 * acc + digit_value c) true r
      else if underscore c && prev_digit then digits acc false r
      else None
  end.

Definition unsigned (s : string) : option Z :=
  match s with
  | String c _ => if is_digit c then digits 0 false s else None
  | EmptyString => None
  end.

Definition parse (text : string) : option Z :=
  match strip text with
  | String c r =>
      if (code c =? 45)%N then Z.opp <$> unsigned r
      else if (code c =? 43)%N then unsigned r
      else unsigned (String c r)
  | EmptyString => None
  end.

End PyInt.

(** ** JSON values and the job record *)

Inductive json : Type :=
| JNull
| JBool (b : bool)
| JNum (n : Z)
| JStr (s : string)
| JTime (t : Z)            (* a string holding the ISO-8601 text of [t] *)
| JList (l : list json)
| JObj (fields : list (string * json)).

(** [dict.get(key)] on the fields of an object: the last binding wins in
    a Python dict, and [__str__] writes each key once. *)
Fixpoint lookup_field (key : string) (fields : list (string * json)) : option json :=
  match fields with
  | [] => None
  | (k, v) :: rest => if String.eqb k key then Some v else lookup_field key rest
  end.

(** [class Job]: the attributes set by [__init__], apart from the
    configuration strings and [remote_corpus_dir], which are functions of
    the configuration and of [corpus_id]. *)
Record Job : Type := mkJob {
  corpus_id : string;
  user_id : option string;
  contact : option string;
  status : Status.t;
  pid : option Z;
  started : option Z;
  done : option Z;
  sparv_done : option Z;
  sparv_exports : list string;
  files : list string;
  available_files : list string;
  install_scrambled : option bool;
  installed_korp : bool;
  latest_seconds_taken : Z;
  progress_output : string
}.

Definition with_status (s : Status.t) (j : Job) : Job :=
  mkJob (corpus_id j) (user_id j) (contact j) s (pid j) (started j) (done j)
        (sparv_done j) (sparv_exports j) (files j) (available_files j)
        (install_scrambled j) (installed_korp j) (latest_seconds_taken j)
        (progress_output j).

Definition with_pid (p : option Z) (j : Job) : Job :=
  mkJob (corpus_id j) (user_id j) (contact j) (status j) p (started j) (done j)
        (sparv_done j) (sparv_exports j) (files j) (available_files j)
        (install_scrambled j) (installed_korp j) (latest_seconds_taken j)
        (progress_output j).

Definition with_started (t : option Z) (j : Job) : Job :=
  mkJob (corpus_id j) (user_id j) (contact j) (status j) (pid j) t (done j)
        (sparv_done j) (sparv_exports j) (files j) (available_files j)
        (install_scrambled j) (installed_korp j) (latest_seconds_taken j)
        (progress_output j).

Definition with_done (t : option Z) (j : Job) : Job :=
  mkJob (corpus_id j) (user_id j) (contact j) (status j) (pid j) (started j) t
        (sparv_done j) (sparv_exports j) (files j) (available_files j)
        (install_scrambled j) (installed_korp j) (latest_seconds_taken j)
        (progress_output j).

Definition with_sparv_done (t : option Z) (j : Job) : Job :=
  mkJob (corpus_id j) (user_id j) (contact j) (status j) (pid j) (started j)
        (done j) t (sparv_exports j) (files j) (available_files j)
        (install_scrambled j) (installed_korp j) (latest_seconds_taken j)
        (progress_output j).

Definition with_install_scrambled (b : option bool) (j : Job) : Job :=
  mkJob (corpus_id j) (user_id j) (contact j) (status j) (pid j) (started j)
        (done j) (sparv_done j) (sparv_exports j) (files j) (available_files j)
        b (installed_korp j) (latest_seconds_taken j) (progress_output j).

Definition with_installed_korp (b : bool) (j : Job) : Job :=
  mkJob (corpus_id j) (user_id j) (contact j) (status j) (pid j) (started j)
        (done j) (sparv_done j) (sparv_exports j) (files j) (available_files j)
        (install_scrambled j) b (latest_seconds_taken j) (progress_output j).

Definition with_latest_seconds_taken (n : Z) (j : Job) : Job :=
  mkJob (corpus_id j) (user_id j) (contact j) (status j) (pid j) (started j)
        (done j) (sparv_done j) (sparv_exports j) (files j) (available_files j)
        (install_scrambled j) (installed_korp j) n (progress_output j).

Definition with_progress_output (p : string) (j : Job) : Job :=
  mkJob (corpus_id j) (user_id j) (contact j) (status j) (pid j) (started j)
        (done j) (sparv_done j) (sparv_exports j) (files j) (available_files j)
        (install_scrambled j) (installed_korp j) (latest_seconds_taken j) p.

(** [Job.__init__]: [sparv_done] starts at [None] and [progress_output] at
    ["0%"]; [x or []] on a list leaves it as it is. *)
Definition Job_init (corpus : string) (user contact_ : option string)
    (status_ : Status.t) (pid_ started_ done_ : option Z)
    (exports files_ available : option (list string))
    (scrambled : option bool) (korp : bool) (seconds : Z) : Job :=
  mkJob corpus user contact_ status_ pid_ started_ done_ None
        (default [] exports) (default [] files_) (default [] available)
        scrambled korp seconds "0%".

(** *** Serialisation: [Job.__str__] *)

Definition json_opt {A} (f : A -> json) (o : option A) : json :=
  match o with Some a => f a | None => JNull end.

Definition json_strings (l : list string) : json := JList (map JStr l).

Definition Job_info (j : Job) : list (string * json) :=
       [("user_id", json_opt JStr (user_id j));
        ("contact", json_opt JStr (contact j));
        ("corpus_id", JStr (corpus_id j));
        ("status", JStr (Status.name (status j)));
        ("pid", json_opt JNum (pid j));
        ("started", json_opt JTime (started j));
        ("done", json_opt JTime (done j));
        ("sparv_exports", json_strings (sparv_exports j));
        ("files", json_strings (files j));
        ("available_files", json_strings (available_files j));
        ("install_scrambled", json_opt JBool (install_scrambled j));
        ("installed_korp", JBool (installed_korp j));
        ("latest_seconds_taken", JNum (latest_seconds_taken j))].

Definition Job_str (j : Job) : json := JObj (Job_info j).

(** ** The outside world *)

(** A finished process: [subprocess.CompletedProcess], texts decoded. *)
Record Proc : Type := mkProc {
  returncode : Z;
  stdout : string;
  stderr : string
}.

(** The shell commands given to [utils.ssh_run], by the method that
    builds them; the arguments are what the command text depends on. *)
Inductive RemoteCmd : Type :=
| MakeCorpusDir (corpus : string)
    (* mkdir -p <remote_corpus_dir> && rm -f <nohupfile> <runscript> *)
| RunScript (corpus : string) (exports files_ : list string)
    (* cd <dir> && echo <script> > <runscript> && chmod +x .. && ./<runscript> *)
| InstallScript (corpus : string) (installs : list string)
| KillTerm (p : Z)             (* kill -SIGTERM <pid> *)
| KillProbe (p : Z)            (* kill -0 <pid> *)
| CatNohup (corpus : string)   (* cd <dir> && cat <nohupfile> *)
| RemoveCorpusDir (corpus : string)    (* rm -rf <dir> *)
| CleanAll (corpus : string)           (* ... sparv clean --all *)
| CleanExport (corpus : string).       (* ... sparv clean --export *)

(** The [rsync] runs of [subprocess.run]. *)
Inductive Transfer : Type :=
| PushConfig (corpus : string)
| PushSources (corpus : string)
| PullExports (corpus : string)
| PullPlainText (corpus : string).

(** The directories given to [storage.upload_dir]. *)
Inductive UploadDir : Type := ExportDir | WorkDir.

(** What has happened outside the job object, oldest first. *)
Inductive Event : Type :=
| Ssh (cmd : RemoteCmd)
| Rsync (t : Transfer)
| Download (corpus : string)
| Upload (corpus : string) (d : UploadDir)
| Saved (corpus : string) (dump : json)
| Removed (corpus : string)
| Dequeued (corpus : string)
| ClockRead.

Record World : Type := mkWorld {
  cache : gmap string json;          (* g.cache: job items by corpus id *)
  backup : gmap string json;         (* files of the queue directory *)
  job_queue : list string;           (* the queue of mink.queue *)
  default_installs : list string;    (* app.config["SPARV_DEFAULT_INSTALLS"] *)
  history : list Event
}.

(** The collaborators of the job: each answer may depend on everything
    that happened before the call. *)
Record Env : Type := mkEnv {
  ssh_run : list Event -> RemoteCmd -> Proc;          (* utils.ssh_run *)
  rsync : list Event -> Transfer -> Proc;             (* subprocess.run(["rsync", ...]) *)
  download_dir : list Event -> string -> option string;   (* Some e: raises e *)
  upload_dir : list Event -> string -> UploadDir -> option string;
  clock : list Event -> Z;                            (* datetime.now() *)
  storage_local : bool;                               (* storage.local *)
  (** [timedelta(seconds=float(text))] in microseconds; [None]: raises. *)
  seconds_of_text : string -> option Z
}.

Inductive Exn : Type :=
| JobError (msg : string)
| ProcessNotRunning (msg : string)
| ProcessNotFound (msg : string)
| Exception (msg : string)
| ValueError
| TypeError
| AttributeError.

(** ** Methods as state transformers that may raise *)

Inductive Outcome (A : Type) : Type :=
| Return (a : A)
| Raise (e : Exn).
Arguments Return {A} a.
Arguments Raise {A} e.

(** A method of [Job]: from the object and the world to an outcome, the
    object and the world. *)
Definition Op (A : Type) : Type := Job -> World -> Outcome A * Job * World.

Definition ret {A} (a : A) : Op A := fun j w => (Return a, j, w).
Definition raise {A} (e : Exn) : Op A := fun j w => (Raise e, j, w).

Definition bind {A B} (m : Op A) (k : A -> Op B) : Op B :=
  fun j w =>
    match m j w with
    | (Return a, j', w') => k a j' w'
    | (Raise e, j', w') => (Raise e, j', w')
    end.

Notation "x <- m ;; k" := (bind m (fun x => k))
  (at level 100, m at next level, right associativity).
Notation "m ;; k" := (bind m (fun _ => k))
  (at level 100, right associativity).

(** [try: m  except <handled>: pass]: other exceptions go on. *)
Definition try_except (m : Op unit) (handled : Exn -> bool) : Op unit :=
  fun j w =>
    match m j w with
    | (Raise e, j', w') =>
        if handled e then (Return tt, j', w') else (Raise e, j', w')
    | r => r
    end.

Definition self : Op Job := fun j w => (Return j, j, w).
Definition world : Op World := fun j w => (Return w, j, w).
Definition update (f : Job -> Job) : Op unit := fun j w => (Return tt, f j, w).
Definition update_world (f : World -> World) : Op unit :=
  fun j w => (Return tt, j, f w).

Definition record (e : Event) (w : World) : World :=
  mkWorld (cache w) (backup w) (job_queue w) (default_installs w)
          (history w ++ [e]).

(** A call to a collaborator: answer from the history, then log the call. *)
Definition call {A} (answer : list Event -> A) (e : Event) : Op A :=
  fun j w => (Return (answer (history w)), j, record e w).

(** Truth value of a text or of [bytes]: non-empty. *)
Definition truthy (s : string) : bool := negb (Text.is_empty s).

(** Truth value of [self.pid]: neither [None] nor [0]. *)
Definition pid_recorded (p : option Z) : bool :=
  match p with
  | Some n => negb (n =? 0)
  | None => false
  end.

(** ** Persistence *)

(** Modelled from the spec: the cache client [g.cache] ([mink.cache] is
    not among the sources).  [set_job], [get_job] and [remove_job] are the
    write, read and delete of a store keyed by [corpus_id]. *)
Definition cache_set_job (corpus : string) (dump : json) (w : World) : World :=
  mkWorld (<[corpus := dump]> (cache w)) (backup w) (job_queue w)
          (default_installs w) (history w).

(** Modelled from the spec: [g.cache.get_job], the read of that store;
    [None] when the cache holds no job for the corpus. *)
Definition cache_get_job (corpus : string) (w : World) : option json :=
  cache w !! corpus.

(** Modelled from the spec: [g.cache.remove_job], the delete of that
    store. *)
Definition cache_remove_job (corpus : string) (w : World) : World :=
  mkWorld (delete corpus (cache w)) (backup w) (job_queue w)
          (default_installs w) (history w).

(** [backup_file.open("w")] and [f.write(dump)] *)
Definition write_backup (corpus : string) (dump : json) (w : World) : World :=
  mkWorld (cache w) (<[corpus := dump]> (backup w)) (job_queue w)
          (default_installs w) (history w).

(** [filename.unlink(missing_ok=True)] *)
Definition unlink_backup (corpus : string) (w : World) : World :=
  mkWorld (cache w) (delete corpus (backup w)) (job_queue w)
          (default_installs w) (history w).

(** Modelled from the spec: [queue.remove(job)] ([mink.queue] is not among
    the sources) takes the job out of the queue. *)
Definition dequeue (corpus : string) (w : World) : World :=
  record (Dequeued corpus)
    (mkWorld (cache w) (backup w)
       (List.filter (fun c => negb (String.eqb c corpus)) (job_queue w))
       (default_installs w) (history w)).

(** [queue.remove(self)] as a step of a method. *)
Definition queue_remove : Op unit :=
  fun j w => (Return tt, j, dequeue (corpus_id j) w).

(** [Job.save] *)
Definition save : Op unit :=
  fun j w =>
    let dump := Job_str j in
    (Return tt, j,
     record (Saved (corpus_id j) dump)
       (write_backup (corpus_id j) dump (cache_set_job (corpus_id j) dump w))).

(** [Job.set_status] *)
Definition set_status (s : Status.t) : Op unit :=
  j <- self ;;
  if negb (Status.eqb (status j) s) then update (with_status s) ;; save
  else ret tt.

(** [Job.set_pid] *)
Definition set_pid (p : option Z) : Op unit :=
  update (with_pid p) ;; save.

(** [Job.set_install_scrambled] *)
Definition set_install_scrambled (b : option bool) : Op unit :=
  update (with_install_scrambled b) ;; save.

(** [Job.set_latest_seconds_taken] *)
Definition set_latest_seconds_taken (seconds : Z) : Op unit :=
  j <- self ;;
  if negb (latest_seconds_taken j =? seconds)
  then update (with_latest_seconds_taken seconds) ;; save
  else ret tt.

(** [Job.reset_time] *)
Definition reset_time : Op unit :=
  update (with_latest_seconds_taken 0) ;;
  update (with_started None) ;;
  update (with_done None) ;;
  update (with_sparv_done None) ;;
  save.

(** *** Loading: [load_from_str] and the call of [Job] on [job_info] *)

(** [job_info[key] = v] *)
Fixpoint set_field (key : string) (v : json) (fields : list (string * json))
    : list (string * json) :=
  match fields with
  | [] => [(key, v)]
  | (k, x) :: rest =>
      if String.eqb k key then (k, v) :: rest
      else (k, x) :: set_field key v rest
  end.

(** [if v is not None: job_info[key] = v] *)
Definition override {A} (key : string) (f : A -> json) (v : option A)
    (fields : list (string * json)) : list (string * json) :=
  match v with
  | Some a => set_field key (f a) fields
  | None => fields
  end.

(** Readers of the keyword arguments of [Job.__init__].  A value whose
    JSON type is not the one [__str__] writes for the attribute has no
    counterpart in [Job]: the reader answers [None]. *)
Definition as_opt_str (v : json) : option (option string) :=
  match v with JNull => Some None | JStr s => Some (Some s) | _ => None end.
Definition as_opt_num (v : json) : option (option Z) :=
  match v with JNull => Some None | JNum n => Some (Some n) | _ => None end.
Definition as_opt_time (v : json) : option (option Z) :=
  match v with JNull => Some None | JTime t => Some (Some t) | _ => None end.
Definition as_opt_bool (v : json) : option (option bool) :=
  match v with JNull => Some None | JBool b => Some (Some b) | _ => None end.
Definition as_bool (v : json) : option bool :=
  match v with JBool b => Some b | _ => None end.
Definition as_num (v : json) : option Z :=
  match v with JNum n => Some n | _ => None end.
Definition as_str (v : json) : option string :=
  match v with JStr s => Some s | _ => None end.

Fixpoint as_strs (l : list json) : option (list string) :=
  match l with
  | [] => Some []
  | v :: rest =>
      match as_str v, as_strs rest with
      | Some s, Some ss => Some (s :: ss)
      | _, _ => None
      end
  end.

Definition as_opt_strings (v : json) : option (option (list string)) :=
  match v with
  | JNull => Some None
  | JList l => Some <$> as_strs l
  | _ => None
  end.

(** A keyword argument with a default: absent keys take the default. *)
Definition keyword {A} (key : string) (dflt : A) (read : json -> option A)
    (fields : list (string * json)) : option A :=
  match lookup_field key fields with
  | Some v => read v
  | None => Some dflt
  end.

(** The parameters of [Job.__init__] that a keyword argument can name;
    [_obsolete] takes the keywords that name none of them. *)
Definition parameters : list string :=
  ["self"; "corpus_id"; "user_id"; "contact"; "status"; "pid"; "started"; "done";
   "sparv_exports"; "files"; "available_files"; "install_scrambled";
   "installed_korp"; "latest_seconds_taken"].

(** [Job] called with [job_info] as keyword arguments, once
    [job_info["status"]] holds the member [st].  The call of the class
    gives the new object for [self], so a key [self] is a second value for
    that parameter and the call raises [TypeError]; [corpus_id] is
    required; the other parameters have defaults; and keys that name no
    parameter fall into [_obsolete].  [None] is the [TypeError] of the
    call, and also the answer for a value whose JSON type is not the one
    that [__str__] writes for the attribute, which has no counterpart in
    [Job]. *)
Definition Job_of_info (st : Status.t) (fields : list (string * json)) : option Job :=
  match lookup_field "self" fields with
  | Some _ => None
  | None =>
      corpus ← lookup_field "corpus_id" fields ≫= as_str;
      user ← keyword "user_id" None as_opt_str fields;
      contact_ ← keyword "contact" None as_opt_str fields;
      pid_ ← keyword "pid" None as_opt_num fields;
      started_ ← keyword "started" None as_opt_time fields;
      done_ ← keyword "done" None as_opt_time fields;
      exports ← keyword "sparv_exports" None as_opt_strings fields;
      files_ ← keyword "files" None as_opt_strings fields;
      available ← keyword "available_files" None as_opt_strings fields;
      scrambled ← keyword "install_scrambled" None as_opt_bool fields;
      korp ← keyword "installed_korp" false as_bool fields;
      seconds ← keyword "latest_seconds_taken" 0 as_num fields;
      Some (Job_init corpus user contact_ st pid_ started_ done_ exports files_
              available scrambled korp seconds)
  end.

(** [json.loads] on the members of an object, in the order of the text:
    the dict, in which a later member takes the place of the value of an
    earlier member with the same key. *)
Definition loads (members : list (string * json)) : list (string * json) :=
  fold_left (fun d kv => set_field (fst kv) (snd kv) d) members [].

(** The caller-supplied parameters of [get_job] and [load_from_str]. *)
Record Overrides : Type := mkOverrides {
  o_user_id : option string;
  o_contact : option string;
  o_sparv_exports : option (list string);
  o_files : option (list string);
  o_available_files : option (list string);
  o_install_scrambled : option bool
}.

Definition no_overrides : Overrides := mkOverrides None None None None None None.

(** [load_from_str].  [Status.of_name] is [getattr(Status, name)] on the
    names of the members and on texts that name no attribute of the
    class. *)
Definition load_from_str (jsonstr : json) (o : Overrides) : Outcome Job :=
  match jsonstr with
  | JObj members =>
      let job_info := loads members in
      match lookup_field "status" job_info with
      | Some (JStr n) =>
          match Status.of_name n with
          | Some st =>
              let job_info :=
                override "install_scrambled" JBool (o_install_scrambled o)
                  (override "available_files" json_strings (o_available_files o)
                     (override "files" json_strings (o_files o)
                        (override "sparv_exports" json_strings (o_sparv_exports o)
                           (override "contact" JStr (o_contact o)
                              (override "user_id" JStr (o_user_id o) job_info))))) in
              match Job_of_info st job_info with
              | Some j => Return j
              | None => Raise TypeError
              end
          | None => Raise AttributeError
          end
      | _ => Raise TypeError
      end
  | _ => Raise AttributeError
  end.

(** [get_job] *)
Definition get_job (w : World) (corpus : string) (o : Overrides) : Outcome Job :=
  match cache_get_job corpus w with
  | Some dump => load_from_str dump o
  | None =>
      Return (Job_init corpus (o_user_id o) (o_contact o) Status.none None None
                None (o_sparv_exports o) (o_files o) (o_available_files o)
                (o_install_scrambled o) false 0)
  end.

(** ** The parser of the remote output and the remote operations *)

(** The list that [latest_msg] is bound to. *)
Inductive Latest : Type := ToMisc | ToWarnings | ToErrors.

(** The local variables of the loop of [get_output]. *)
Record Parsed : Type := mkParsed {
  p_progress : string;
  p_warnings : list string;
  p_errors : list string;
  p_misc : list string;
  p_latest : Latest
}.

Definition parsed_start : Parsed := mkParsed EmptyString [] [] [] ToMisc.

Definition set_progress (msg : string) (st : Parsed) : Parsed :=
  mkParsed msg (p_warnings st) (p_errors st) (p_misc st) (p_latest st).

Definition add_warning (msg : string) (st : Parsed) : Parsed :=
  mkParsed (p_progress st) (p_warnings st ++ [msg]) (p_errors st) (p_misc st)
           ToWarnings.

Definition add_error (msg : string) (st : Parsed) : Parsed :=
  mkParsed (p_progress st) (p_warnings st) (p_errors st ++ [msg]) (p_misc st)
           ToErrors.

Definition add_misc (msg : string) (st : Parsed) : Parsed :=
  mkParsed (p_progress st) (p_warnings st) (p_errors st) (p_misc st ++ [msg])
           (p_latest st).

(** [latest_msg.append(msg)]: the list is shared with the one it names. *)
Definition add_latest (msg : string) (st : Parsed) : Parsed :=
  match p_latest st with
  | ToMisc => add_misc msg st
  | ToWarnings =>
      mkParsed (p_progress st) (p_warnings st ++ [msg]) (p_errors st)
               (p_misc st) ToWarnings
  | ToErrors =>
      mkParsed (p_progress st) (p_warnings st) (p_errors st ++ [msg])
               (p_misc st) ToErrors
  end.

(** [", ".join([line for line in out.split("\n") if line])] *)
Fixpoint join_comma (l : list string) : string :=
  match l with
  | [] => EmptyString
  | [x] => x
  | x :: rest => x ++ ", " ++ join_comma rest
  end.

Definition nonempty_lines (out : string) : string :=
  join_comma (List.filter truthy (Text.split_lines out)).

(** [isoformat(timespec="seconds")]: the microseconds are cut off. *)
Definition whole_seconds (t : Z) : Z := t - t mod 1000000.

(** An error answer of a route: [utils.response(msg, err=True, info=..)]
    with its HTTP status. *)
Record Response : Type := mkResponse {
  message : string;
  info : string;
  http_status : Z
}.

Definition is_ProcessNotRunning (e : Exn) : bool :=
  match e with ProcessNotRunning _ => true | _ => false end.

Section Operations.

Variable env : Env.

Definition ssh (cmd : RemoteCmd) : Op Proc :=
  call (fun h => ssh_run env h cmd) (Ssh cmd).

Definition run_rsync (t : Transfer) : Op Proc :=
  call (fun h => rsync env h t) (Rsync t).

Definition now : Op Z := call (clock env) ClockRead.

(** One turn of the loop of [get_output] over the lines. *)
Definition parse_line (line : string) (st : Parsed) : Op Parsed :=
  match Regex.tagged line with
  | Some (tag, group2) =>
      let msg := Text.strip group2 in
      if String.eqb tag "PROGRESS" then ret (set_progress msg st)
      else if String.eqb tag "WARNING" then ret (add_warning (tag ++ " " ++ msg) st)
      else if String.eqb tag "ERROR" then ret (add_error (tag ++ " " ++ msg) st)
      else ret st
  | None =>
      if Regex.continuation line then ret (add_latest (Text.strip line) st)
      else if Regex.real_time line then
        match seconds_of_text env (Text.strip (Text.drop 5 line)) with
        | None => raise ValueError
        | Some real_seconds =>
            j <- self ;;
            match started j with
            | None => raise TypeError
            | Some t =>
                update (with_sparv_done (Some (t + real_seconds))) ;; ret st
            end
        end
      else if Regex.user_sys line then ret st
      else if truthy (Text.strip line) then ret (add_misc (Text.strip line) st)
      else ret st
  end.

Fixpoint parse_lines (lines : list string) (st : Parsed) : Op Parsed :=
  match lines with
  | [] => ret st
  | line :: rest => st' <- parse_line line st ;; parse_lines rest st'
  end.

(** [Job.get_output]: warnings, errors and misc. *)
Definition get_output : Op (string * string * string) :=
  j <- self ;;
  if negb (Status.has_process_output (status j))
  then ret (EmptyString, EmptyString, EmptyString)
  else
    p <- ssh (CatNohup (corpus_id j)) ;;
    let out := if truthy (stdout p) then Text.strip (stdout p) else EmptyString in
    if truthy out then
      st <- parse_lines (Text.split_lines out) parsed_start ;;
      let warnings := Text.join_lines (p_warnings st) in
      let errors := Text.join_lines (p_errors st) in
      let misc := Text.join_lines (p_misc st) in
      let progress :=
        if Text.startswith "Nothing to be done." misc then "100%"
        else p_progress st in
      update (with_progress_output progress) ;;
      ret (warnings, errors, misc)
    else ret (EmptyString, EmptyString, EmptyString).

(** The remote host says that the process does not exist (in Swedish or
    in English). *)
Definition no_such_process (err : string) : bool :=
  Text.endswith ("Processen finns inte" ++ Text.newline) err
  || Text.endswith ("No such process" ++ Text.newline) err.

(** [Job.abort_sparv] *)
Definition abort_sparv : Op unit :=
  j <- self ;;
  if Status.is_waiting (status j) then
    queue_remove ;; set_status Status.aborted
  else if negb (Status.is_running (status j)) then
    raise (ProcessNotRunning "Failed to abort job because Sparv was not running!")
  else
    match pid j with
    | Some n =>
        if pid_recorded (Some n) then
          p <- ssh (KillTerm n) ;;
          if returncode p =? 0 then
            set_pid None ;; set_status Status.aborted
          else if no_such_process (stderr p)
          then set_pid None ;; set_status Status.aborted
          else raise (JobError ("Failed to abort job! Error: '" ++ stderr p ++ "'"))
        else
          raise (ProcessNotFound "Failed to abort job because no process ID was found!")
    | None =>
        raise (ProcessNotFound "Failed to abort job because no process ID was found!")
    end.

(** [Job.remove] *)
Definition remove (abort : bool) : Op unit :=
  j <- self ;;
  (if Status.eqb (status j) Status.annotating then
     if abort then try_except abort_sparv is_ProcessNotRunning
     else raise (JobError "Job cannot be removed due to a running Sparv process!")
   else ret tt) ;;
  update_world (cache_remove_job (corpus_id j)) ;;
  update_world (unlink_backup (corpus_id j)) ;;
  update_world (record (Removed (corpus_id j))).

(** The first statement of [Job.process_running]: the liveness probe.
    [true] is the early [return True]. *)
Definition probe : Op bool :=
  j <- self ;;
  match pid j with
  | Some n =>
      if pid_recorded (Some n) then
        p <- ssh (KillProbe n) ;;
        if returncode p =? 0 then ret true
        else set_pid None ;; ret false
      else ret false
  | None => ret false
  end.

(** [Job.process_running] *)
Definition process_running : Op bool :=
  alive <- probe ;;
  if (alive : bool) then ret true
  else
    get_output ;;
    j <- self ;;
    (if String.eqb (progress_output j) "100%" then
       if Status.eqb (status j) Status.annotating then
         if storage_local env then set_status Status.done_syncing
         else set_status Status.done_annotating
       else if Status.eqb (status j) Status.installing then
         set_status Status.done_installing
       else ret tt
     else set_status Status.error) ;;
    ret false.

(** [Job.seconds_taken] *)
Definition seconds_taken : Op Z :=
  j <- self ;;
  seconds <-
    match started j with
    | None => ret 0
    | Some t0 =>
        if Status.is_waiting (status j) then ret 0
        else if Status.is_running (status j) then
          t <- now ;;
          ret (Z.max (latest_seconds_taken j) (t - t0))
        else
          match sparv_done j with
          | Some t1 =>
              let seconds := Z.max (latest_seconds_taken j) (t1 - t0) in
              update (with_done (Some (t0 + seconds))) ;; ret seconds
          | None => ret 0
          end
    end ;;
  set_latest_seconds_taken seconds ;;
  ret seconds.

(** [Job.progress] *)
Definition progress (j : Job) : option string :=
  if Status.has_process_output (status j) then
    if String.eqb (progress_output j) "100%"
       && negb (Status.is_done_processing (status j))
    then Some "99%"
    else Some (progress_output j)
  else if Status.is_active (status j) then Some "0%"
  else None.

(** *** Local paths: [utils.get_corpora_dir] and the functions on it

    A path below [app.instance_path], by its parts.  The directories that
    [mkdir] makes are on the local disk, which the world does not hold. *)
Definition LocalPath : Type := list string.

(** The settings of config.py that name the parts. *)
Definition TMP_DIR : string := "tmp".
Definition SPARV_SOURCE_DIR : string := "source".
Definition SPARV_EXPORT_DIR : string := "export".
Definition SPARV_WORK_DIR : string := "sparv-workdir".
Definition SPARV_CORPUS_CONFIG : string := "config.yaml".

(** [utils.get_corpora_dir(user, mkdir=False)].  The arguments of a call
    are bound to the parameters before the body runs: [None] is a
    parameter that the call leaves without argument, and [user] has no
    default, so the call raises [TypeError]. *)
Definition get_corpora_dir (user : option string) (mkdir : bool)
    : Exn + LocalPath :=
  match user with
  | Some user => inr [TMP_DIR; user]
  | None => inl TypeError
  end.

(** What the functions on [get_corpus_dir] do with their arguments:
    [user] and [corpus_id] have no default. *)
Definition below_corpus_dir (user corpus_id : option string) (mkdir : bool)
    (parts : list string) : Exn + LocalPath :=
  match user, corpus_id with
  | Some user, Some corpus_id =>
      match get_corpora_dir (Some user) mkdir with
      | inr corpora_dir => inr (corpora_dir ++ corpus_id :: parts)%list
      | inl e => inl e
      end
  | _, _ => inl TypeError
  end.

(** [utils.get_corpus_dir(user, corpus_id, mkdir=False)] *)
Definition get_corpus_dir (user corpus_id : option string) (mkdir : bool)
    : Exn + LocalPath :=
  below_corpus_dir user corpus_id mkdir [].

(** [utils.get_export_dir(user, corpus_id, mkdir=False)] *)
Definition get_export_dir (user corpus_id : option string) (mkdir : bool)
    : Exn + LocalPath :=
  below_corpus_dir user corpus_id mkdir [SPARV_EXPORT_DIR].

(** [utils.get_work_dir(user, corpus_id, mkdir=False)] *)
Definition get_work_dir (user corpus_id : option string) (mkdir : bool)
    : Exn + LocalPath :=
  below_corpus_dir user corpus_id mkdir [SPARV_WORK_DIR].

(** [utils.get_source_dir(user, corpus_id, mkdir=False)] *)
Definition get_source_dir (user corpus_id : option string) (mkdir : bool)
    : Exn + LocalPath :=
  below_corpus_dir user corpus_id mkdir [SPARV_SOURCE_DIR].

(** [utils.get_config_file(user, corpus_id)] *)
Definition get_config_file (user corpus_id : option string) : Exn + LocalPath :=
  below_corpus_dir user corpus_id false [SPARV_CORPUS_CONFIG].

(** The value of a call inside a method, or its exception. *)
Definition value_of {A} (r : Exn + A) : Op A :=
  match r with
  | inr a => ret a
  | inl e => raise e
  end.

(** [Job.sync_to_sparv].  The calls of the path functions are the calls
    of the method: [utils.get_corpora_dir(mkdir=True)] gives no user, and
    [utils.get_config_file(self.corpus_id)] and
    [utils.get_source_dir(self.corpus_id)] give the corpus id in the place
    of the user and no corpus id.  [storage.get_corpus_dir] belongs to
    [mink.sparv.storage], which is not among the sources; its value goes
    only into the arguments of the download. *)
Definition sync_to_sparv : Op unit :=
  set_status Status.syncing_corpus ;;
  j <- self ;;
  local_user_dir <- value_of (get_corpora_dir None true) ;;
  p <- ssh (MakeCorpusDir (corpus_id j)) ;;
  if truthy (stderr p) then
    set_status Status.error ;;
    raise (Exception ("Failed to create corpus dir on Sparv server! " ++ stderr p))
  else
    failure <- call (fun h => download_dir env h (corpus_id j))
                    (Download (corpus_id j)) ;;
    match failure with
    | Some e =>
        set_status Status.error ;;
        raise (Exception ("Failed to download corpus '" ++ corpus_id j
                          ++ "' from the storage server! " ++ e))
    | None =>
        config_file <- value_of (get_config_file (Some (corpus_id j)) None) ;;
        p <- run_rsync (PushConfig (corpus_id j)) ;;
        if truthy (stderr p) then
          set_status Status.error ;;
          raise (Exception ("Failed to copy corpus config file to Sparv server! "
                            ++ stderr p))
        else
          local_source_dir <- value_of (get_source_dir (Some (corpus_id j)) None false) ;;
          p <- run_rsync (PushSources (corpus_id j)) ;;
          if truthy (stderr p) then
            set_status Status.error ;;
            raise (Exception ("Failed to copy corpus files to Sparv server! "
                              ++ stderr p))
          else set_status Status.waiting
    end.

(** [Job.run_sparv] *)
Definition run_sparv : Op unit :=
  j <- self ;;
  t <- now ;;
  update (with_started (Some (whole_seconds t))) ;;
  p <- ssh (RunScript (corpus_id j) (sparv_exports j) (files j)) ;;
  if negb (returncode p =? 0) then
    reset_time ;;
    set_status Status.error ;;
    raise (JobError ("Failed to run Sparv! " ++ stderr p))
  else
    match PyInt.parse (stdout p) with
    | Some n => set_pid (Some n) ;; set_status Status.annotating
    | None => raise ValueError
    end.

(** [Job.install_korp]: the list of the configuration is extended in
    place. *)
Definition install_korp : Op unit :=
  j <- self ;;
  let variant :=
    if default false (install_scrambled j)
    then "cwb:install_corpus_scrambled" else "cwb:install_corpus" in
  update_world (fun w =>
    mkWorld (cache w) (backup w) (job_queue w)
            (default_installs w ++ [variant]) (history w)) ;;
  w <- world ;;
  t <- now ;;
  update (with_started (Some (whole_seconds t))) ;;
  p <- ssh (InstallScript (corpus_id j) (default_installs w)) ;;
  if negb (returncode p =? 0) then
    reset_time ;;
    set_status Status.error ;;
    raise (JobError ("Failed to install corpus with Sparv. " ++ stderr p))
  else
    update (with_installed_korp true) ;;
    match PyInt.parse (stdout p) with
    | Some n => set_pid (Some n) ;; set_status Status.installing
    | None => raise ValueError
    end.

(** [Job.sync_results]: the failure of the first pull is answered, not
    raised.  [utils.get_corpus_dir(self.corpus_id, mkdir=True)],
    [utils.get_export_dir(self.corpus_id)] and
    [utils.get_work_dir(self.corpus_id)] give the corpus id in the place of
    the user and no corpus id. *)
Definition sync_results : Op (option Response) :=
  j <- self ;;
  local_corpus_dir <- value_of (get_corpus_dir (Some (corpus_id j)) None true) ;;
  p <- run_rsync (PullExports (corpus_id j)) ;;
  if truthy (stderr p) then
    set_status Status.error ;;
    ret (Some (mkResponse "Failed to retrieve Sparv exports" (stderr p) 500))
  else
    run_rsync (PullPlainText (corpus_id j)) ;;
    local_export_dir <- value_of (get_export_dir (Some (corpus_id j)) None false) ;;
    failure <- call (fun h => upload_dir env h (corpus_id j) ExportDir)
                    (Upload (corpus_id j) ExportDir) ;;
    match failure with
    | Some e =>
        set_status Status.error ;;
        raise (Exception ("Failed to upload exports to the storage server! " ++ e))
    | None =>
        local_work_dir <- value_of (get_work_dir (Some (corpus_id j)) None false) ;;
        failure <- call (fun h => upload_dir env h (corpus_id j) WorkDir)
                        (Upload (corpus_id j) WorkDir) ;;
        match failure with
        | Some e =>
            set_status Status.error ;;
            raise (Exception
              ("Failed to upload plain text sources to the storage server! " ++ e))
        | None => set_status Status.done_syncing ;; ret None
        end
    end.

(** [Job.remove_from_sparv] *)
Definition remove_from_sparv : Op unit :=
  try_except abort_sparv is_ProcessNotRunning ;;
  j <- self ;;
  ssh (RemoveCorpusDir (corpus_id j)) ;;
  ret tt.

(** [Job.clean] *)
Definition clean : Op string :=
  j <- self ;;
  p <- ssh (CleanAll (corpus_id j)) ;;
  if truthy (stderr p) then raise (Exception (stderr p))
  else ret (nonempty_lines (stdout p)).

(** [Job.clean_export] *)
Definition clean_export : Op string :=
  j <- self ;;
  p <- ssh (CleanExport (corpus_id j)) ;;
  if truthy (stderr p) then raise (Exception (stderr p))
  else ret (nonempty_lines (stdout p)).

End Operations.

(** ** Requirements of a corpus, answers of the routes, listings *)

(** An entry of the answer of [storage.list_contents]: the values under
    its keys [name] and [path]. *)
Record Content : Type := mkContent {
  c_name : string;
  c_path : string
}.

(** [Job.check_requirements], given the answer [corpus_contents] of
    [storage.list_contents] and the settings [SPARV_CORPUS_CONFIG] and
    [SPARV_SOURCE_DIR] of the configuration. *)
Definition check_requirements (config_file source_dir : string)
    (corpus_contents : list Content) : Op unit :=
  j <- self ;;
  if negb (existsb (String.eqb config_file) (map c_name corpus_contents)) then
    set_status Status.error ;;
    raise (Exception ("No config file provided for '" ++ corpus_id j ++ "'!"))
  else if (length (List.filter (fun i => Text.startswith source_dir (c_path i))
                     corpus_contents) =? 0)%nat then
    set_status Status.error ;;
    raise (Exception ("No input files provided for '" ++ corpus_id j ++ "'!"))
  else ret tt.

(** [value != ""] on a keyword argument of [utils.response]. *)
Definition is_empty_text (v : json) : bool :=
  match v with
  | JStr EmptyString => true
  | _ => false
  end.

(** [utils.response]: the object that is dumped into the body of the
    answer; [kwargs] in the order of the call. *)
Definition response (msg : string) (err : bool) (kwargs : list (string * json))
    : list (string * json) :=
  fold_left
    (fun res kv => if is_empty_text (snd kv) then res
                   else set_field (fst kv) (snd kv) res)
    kwargs
    [("status", JStr (if err then "error" else "success"));
     ("message", JStr msg)].

(** The commands that [DefaultJob] gives to [utils.ssh_run]. *)
Inductive DefaultCmd : Type :=
| WriteDefaultConfig (lang : string)
    (* mkdir -p <dir> && echo 'metadata:\n  language: <lang>' > <dir>/<config> *)
| SparvLanguages (lang : string)      (* cd <dir> && ... sparv languages *)
| SparvRunList (lang : string).       (* cd <dir> && ... sparv run -l *)

(** The remote host as [DefaultJob] sees it: the answer to a command
    after the commands before it. *)
Definition DefaultHost : Type := list DefaultCmd -> DefaultCmd -> Proc.

(** What a listing of [DefaultJob] raises: an exception of the module, or
    the [IndexError] of [exports[-1]] on an empty list. *)
Inductive ListingExn : Type :=
| Raised (e : Exn)
| IndexError.

(** An entry of [list_languages]. *)
Record Language : Type := mkLanguage {
  l_name : string;
  l_code : string
}.

(** An entry of [list_exports]. *)
Record Export : Type := mkExport {
  e_export : string;
  e_description : string
}.

Definition not_space (c : ascii) : bool := negb (Text.is_space c).

(** [\s+(\S+)$] at the start of [s]: the whole run of white space, then
    characters that are no white space up to the end. *)
Definition gap_then_token (s : string) : option string :=
  let '(gap, rest) := Text.span Text.is_space s in
  let '(token, tail) := Text.span not_space rest in
  if Text.is_empty gap then None
  else if Text.is_empty token then None
  else if Text.is_empty tail then Some token
  else None.

(** [(.+?)\s+(\S+)$]: the lazy first group grows one character at a time
    until the rest is white space and one last token. *)
Fixpoint name_then_code (line : string) : option (string * string) :=
  match line with
  | EmptyString => None
  | String c rest =>
      match gap_then_token rest with
      | Some token => Some (String c EmptyString, token)
      | None =>
          match name_then_code rest with
          | Some (name, token) => Some (String c name, token)
          | None => None
          end
      end
  end.

(** [(\S+)\s+(.+)$]: the first token, the whole run of white space, and
    what follows; when nothing follows, the run gives its last character
    to the second group. *)
Definition export_then_description (line : string) : option (string * string) :=
  let '(token, after_token) := Text.span not_space line in
  let '(gap, rest) := Text.span Text.is_space after_token in
  if Text.is_empty token then None
  else if Text.is_empty gap then None
  else if negb (Text.is_empty rest) then Some (token, rest)
  else match gap with
       | String _ (String _ _) => Some (token, Text.last_char gap)
       | _ => None
       end.

(** [l[1:]] *)
Definition but_first {A} (l : list A) : list A := List.tl l.

(** [l[1:-1]] *)
Definition but_first_and_last {A} (l : list A) : list A :=
  List.removelast (List.tl l).

(** The loop of [list_languages] over the lines, with its [break]. *)
Fixpoint languages_of (lines : list string) (languages : list Language)
    : list Language :=
  match lines with
  | [] => languages
  | line :: rest =>
      if Text.startswith "Supported language varieties" line then languages
      else
        match name_then_code line with
        | Some (name, code_) => languages_of rest (languages ++ [mkLanguage name code_])
        | None => languages_of rest languages
        end
  end.

(** [DefaultJob.list_languages] *)
Definition list_languages (host : DefaultHost) (lang : string)
    : Exn + list Language :=
  let p := host [] (WriteDefaultConfig lang) in
  if truthy (stderr p) then
    inl (Exception ("Failed to list languages! " ++ stderr p))
  else
    let p := host [WriteDefaultConfig lang] (SparvLanguages lang) in
    if negb (returncode p =? 0) then
      inl (JobError ("Failed to run Sparv! " ++ stderr p))
    else
      let lines :=
        but_first (List.filter truthy (map Text.strip (Text.split_lines (stdout p)))) in
      inr (languages_of lines []).

(** [exports[-1]["description"] += " " + text] *)
Fixpoint extend_last (exports : list Export) (text : string) : option (list Export) :=
  match exports with
  | [] => None
  | [e] => Some [mkExport (e_export e) (e_description e ++ " " ++ text)]
  | e :: rest =>
      match extend_last rest text with
      | Some rest' => Some (e :: rest')
      | None => None
      end
  end.

(** [group(1) not in ["Other", "Note:", "what", "'export.default'"]] *)
Definition listed_export (name : string) : bool :=
  negb (existsb (String.eqb name) ["Other"; "Note:"; "what"; "'export.default'"]).

(** The loop of [list_exports] over the lines. *)
Fixpoint exports_of (lines : list string) (exports : list Export)
    : option (list Export) :=
  match lines with
  | [] => Some exports
  | line :: rest =>
      if Text.startswith "    " line then
        match extend_last exports (Text.strip line) with
        | Some exports' => exports_of rest exports'
        | None => None
        end
      else
        match export_then_description (Text.strip line) with
        | Some (name, description) =>
            if listed_export name
            then exports_of rest (exports ++ [mkExport name description])
            else exports_of rest exports
        | None => exports_of rest exports
        end
  end.

(** [DefaultJob.list_exports] *)
Definition list_exports (host : DefaultHost) (lang : string)
    : ListingExn + list Export :=
  let p := host [] (WriteDefaultConfig lang) in
  if truthy (stderr p) then
    inl (Raised (Exception ("Failed to list exports! " ++ stderr p)))
  else
    let p := host [WriteDefaultConfig lang] (SparvRunList lang) in
    if negb (returncode p =? 0) then
      inl (Raised (JobError ("Failed to run Sparv! " ++ stderr p)))
    else
      let lines :=
        but_first_and_last
          (List.filter (fun line => truthy (Text.strip line))
             (Text.split_lines (stdout p))) in
      match exports_of lines [] with
      | Some exports => inr exports
      | None => inl IndexError
      end.

(** The install target that [install_korp] adds for the job. *)
Definition install_variant (j : Job) : string :=
  if default false (install_scrambled j)
  then "cwb:install_corpus_scrambled" else "cwb:install_corpus".

(** The text holds a newline. *)
Fixpoint has_newline (s : string) : bool :=
  match s with
  | EmptyString => false
  | String c r => Text.is_newline c || has_newline r
  end.

(** The body of the loop of [utils.response] over the keyword arguments. *)
Definition response_step (res : list (string * json)) (kv : string * json)
    : list (string * json) :=
  if is_empty_text (snd kv) then res else set_field (fst kv) (snd kv) res.

(** The line makes the loop of [list_exports] append an entry. *)
Definition adds_export (line : string) : bool :=
  match export_then_description (Text.strip line) with
  | Some (name, _) => listed_export name
  | None => false
  end.

(** Every character of the text is in the class [p]. *)
Fixpoint every (p : ascii -> bool) (s : string) : bool :=
  match s with
  | EmptyString => true
  | String c r => p c && every p r
  end.

(** What holds of an entry of the languages: it was read from one of the
    lines, as a name, white space and a code. *)
Definition read_from (lines : list string) (l : Language) : Prop :=
  exists line gap,
    In line lines /\ line = l_name l ++ gap ++ l_code l /\
    l_name l <> EmptyString /\ gap <> EmptyString /\
    every Text.is_space gap = true /\
    l_code l <> EmptyString /\ every not_space (l_code l) = true.

(** A continuation line comes before any line that gives an entry. *)
Definition continuation_first (lines : list string) : Prop :=
  exists before line after,
    lines = (before ++ line :: after)%list /\
    Text.startswith "    " line = true /\
    List.Forall (fun l => Text.startswith "    " l = false /\ adds_export l = false)
      before.

(** ** Reading the persisted state back *)

(** The job that [get_job] rebuilds from the cache, without overrides. *)
Definition persisted (w : World) (corpus : string) : option Job :=
  match cache_get_job corpus w with
  | Some dump =>
      match load_from_str dump no_overrides with
      | Return j => Some j
      | Raise _ => None
      end
  | None => None
  end.

Definition persisted_status (w : World) (corpus : string) : option Status.t :=
  status <$> persisted w corpus.

(** The remote commands that the history holds. *)
Definition remote_commands (h : list Event) : list RemoteCmd :=
  omap (fun e => match e with Ssh cmd => Some cmd | _ => None end) h.


(** A recorded process id goes with a running status. *)
Definition pid_only_while_running (j : Job) : Prop :=
  pid_recorded (pid j) = true -> Status.is_running (status j) = true.

(** The world after [save] of the job [j]. *)
Definition stored (j : Job) (w : World) : World :=
  record (Saved (corpus_id j) (Job_str j))
    (write_backup (corpus_id j) (Job_str j)
       (cache_set_job (corpus_id j) (Job_str j) w)).

(** A caller-supplied parameter takes the place of the stored field. *)
Definition supplied {A} (given stored_ : option A) : option A :=
  match given with
  | Some a => Some a
  | None => stored_
  end.

(** The record that is equivalent to [j] up to the caller-supplied
    parameters [o]: every persisted field is the one of [j] unless a
    parameter replaces it; the two attributes that are not persisted start
    afresh. *)
Definition reloaded (o : Overrides) (j : Job) : Job :=
  mkJob (corpus_id j)
        (supplied (o_user_id o) (user_id j))
        (supplied (o_contact o) (contact j))
        (status j) (pid j) (started j) (done j) None
        (default (sparv_exports j) (o_sparv_exports o))
        (default (files j) (o_files o))
        (default (available_files j) (o_available_files o))
        (supplied (o_install_scrambled o) (install_scrambled j))
        (installed_korp j) (latest_seconds_taken j) "0%".

(** The world after [set_status s] on the job [j]: nothing is written when
    the status is [s] already. *)
Definition after_set_status (s : Status.t) (j : Job) (w : World) : World :=
  if Status.eqb (status j) s then w else stored (with_status s j) w.

(** The attributes after [reset_time]. *)
Definition cleared (j : Job) : Job :=
  with_sparv_done None (with_done None (with_started None
    (with_latest_seconds_taken 0 j))).

(** From [w] to [w'] the history has only grown, and every record saved
    in between is the text of a job that satisfies [P]. *)
Definition written (P : Job -> Prop) (w w' : World) : Prop :=
  exists events : list Event,
    history w' = (history w ++ events)%list /\
    forall (corpus : string) (dump : json),
      In (Saved corpus dump) events -> exists j : Job, dump = Job_str j /\ P j.


(** ** Sample collaborators and jobs *)

Module Sample.
Import Text.

Definition quiet : Proc := mkProc 0 EmptyString EmptyString.

(** A reading of decimal texts such as [time -p] prints ([12.34]): whole
    part, and up to six decimals. *)
Definition pad6 (frac : string) : option Z :=
  match PyInt.unsigned (frac ++ String.substring 0 (6 - String.length frac) "000000") with
  | Some n => if (String.length frac <=? 6)%nat then Some n else None
  | None => None
  end.

Definition decimal_seconds (text : string) : option Z :=
  let '(whole, rest) := span is_digit text in
  match PyInt.unsigned whole, rest with
  | Some n, EmptyString => Some (n * 1000000)
  | Some n, String dot frac =>
      if (code dot =? 46)%N then (fun f => n * 1000000 + f) <$> pad6 frac
      else None
  | None, _ => None
  end.

(** Collaborators whose remote host answers by command, whose transfers
    succeed and whose clock shows [time]. *)
Definition env_of (answer : RemoteCmd -> Proc) (local : bool) (time : Z) : Env :=
  mkEnv (fun _ cmd => answer cmd) (fun _ _ => quiet) (fun _ _ => None)
        (fun _ _ _ => None) (fun _ => time) local decimal_seconds.

Definition job (s : Status.t) (p : option Z) : Job :=
  mkJob "demo-1" (Some "user") None s p (Some 1000000) None None
        ["xml_export:pretty"] [] [] None false 0 "0%".

Definition fresh : World := mkWorld ∅ ∅ [] [] [].

(** The world in which [j] has just been saved and queued. *)
Definition holding (j : Job) : World :=
  mkWorld {[ corpus_id j := Job_str j ]} {[ corpus_id j := Job_str j ]}
          [corpus_id j] [] [].

Definition said (code_ : Z) (out err : string) : RemoteCmd -> Proc :=
  fun _ => mkProc code_ out err.

(** A remote host on which the process has ended and left [out] in the
    output file. *)
Definition ended (out : string) : RemoteCmd -> Proc :=
  fun cmd =>
    match cmd with
    | KillProbe _ => mkProc 1 EmptyString "kill: No such process"
    | CatNohup _ => mkProc 0 out EmptyString
    | _ => quiet
    end.

(** A remote host that starts every run as process 4242, which has ended
    by the time it is probed and has left [out] in the output file. *)
Definition obliging (out : string) : RemoteCmd -> Proc :=
  fun cmd =>
    match cmd with
    | RunScript _ _ _ => mkProc 0 ("4242" ++ newline) EmptyString
    | other => ended out other
    end.

End Sample.

(** * Properties *)

(** ** The parser on sample lines *)

Example tagged_progress :
  Regex.tagged "12:01:59 PROGRESS  57%" = Some ("PROGRESS", "57%").
Proof. reflexivity. Qed.

Example tagged_indent :
  Regex.tagged "         WARNING x " = Some ("WARNING", "x ").
Proof. reflexivity. Qed.

Example split_lines_ex :
  Text.split_lines ("a" ++ Text.newline ++ "b" ++ Text.newline) = ["a"; "b"; EmptyString].
Proof. reflexivity. Qed.

Example strip_ex : Text.strip "  a b  " = "a b".
Proof. reflexivity. Qed.

Example tagged_needs_message : Regex.tagged "12:00:01 ERROR " = None.
Proof. reflexivity. Qed.

Example int_of_echo : PyInt.parse (" 4242" ++ Text.newline) = Some 4242.
Proof. reflexivity. Qed.

(** Warnings, errors and misc of an output with continuation lines and
    the times of [time -p]. *)
Example get_output_sorts_lines :
  let nl := Text.newline in
  let out := "12:00:01 WARNING first" ++ nl ++ "         more" ++ nl
             ++ "12:00:02 ERROR bad" ++ nl ++ "        tail" ++ nl
             ++ "12:00:03 PROGRESS 57%" ++ nl ++ "loose line" ++ nl
             ++ "real 2.50" ++ nl ++ "user 1.10" ++ nl ++ "sys 0.10" ++ nl in
  let env := Sample.env_of (Sample.said 0 out EmptyString) false 0 in
  let j := Sample.job Status.annotating None in
  get_output env j Sample.fresh
  = (Return ("WARNING first" ++ nl ++ "more", "ERROR bad" ++ nl ++ "tail", "loose line"),
     with_progress_output "57%" (with_sparv_done (Some 3500000) j),
     record (Ssh (CatNohup "demo-1")) Sample.fresh).
Proof. reflexivity. Qed.

(** A [real] line that cannot be read makes [get_output] raise. *)
Example get_output_unreadable_time :
  let env := Sample.env_of (Sample.said 0 "real 1m30" EmptyString) false 0 in
  fst (fst (get_output env (Sample.job Status.annotating None) Sample.fresh))
  = Raise ValueError.
Proof. reflexivity. Qed.

(** ** Unfolding the methods *)

Tactic Notation "run" :=
  cbv beta iota delta
    [bind ret raise self world update update_world call try_except ssh
     run_rsync now].

Tactic Notation "run" "in" hyp(H) :=
  cbv beta iota delta
    [bind ret raise self world update update_world call try_except ssh
     run_rsync now] in H.

Lemma status_eqb_eq (a b : Status.t) : Status.eqb a b = true <-> a = b.
Proof. unfold Status.eqb. apply bool_decide_eq_true. Qed.

Lemma status_eqb_refl (a : Status.t) : Status.eqb a a = true.
Proof. apply status_eqb_eq. reflexivity. Qed.

Lemma status_eqb_neq (a b : Status.t) : a <> b -> Status.eqb a b = false.
Proof. unfold Status.eqb. apply bool_decide_eq_false. Qed.

(** ** Output of a job without process output *)

(** C10.  For a job whose status is outside the has-process-output set,
    [get_output] returns empty warnings, errors and misc, and leaves the
    job object (every attribute, [progress_output] included) and the world
    (no remote command is added to the history) as they were. *)
Theorem get_output_without_process_output (env : Env) (j : Job) (w : World) :
  Status.has_process_output (status j) = false ->
  get_output env j w = (Return (EmptyString, EmptyString, EmptyString), j, w).
Proof.
  intros Hno. unfold get_output. run. rewrite Hno. reflexivity.
Qed.

Lemma get_output_without_process_output_witness :
  Status.has_process_output (status (Sample.job Status.waiting None)) = false /\
  get_output (Sample.env_of (Sample.said 0 "12:00:01 PROGRESS 100%" EmptyString) false 0)
    (Sample.job Status.waiting None) Sample.fresh
  = (Return (EmptyString, EmptyString, EmptyString),
     Sample.job Status.waiting None, Sample.fresh).
Proof.
  split; [reflexivity|].
  apply (get_output_without_process_output
           (Sample.env_of (Sample.said 0 "12:00:01 PROGRESS 100%" EmptyString) false 0)
           (Sample.job Status.waiting None) Sample.fresh).
  reflexivity.
Defined.

(** ** Save and load *)

Lemma of_name_name (s : Status.t) : Status.of_name (Status.name s) = Some s.
Proof. destruct s; reflexivity. Qed.

Lemma name_injective (a b : Status.t) : Status.name a = Status.name b -> a = b.
Proof.
  intros H. assert (E : Status.of_name (Status.name a) = Status.of_name (Status.name b))
    by (rewrite H; reflexivity).
  rewrite !of_name_name in E. congruence.
Qed.

Lemma as_strs_strings (l : list string) : as_strs (map JStr l) = Some l.
Proof.
  induction l as [|x l IH]; [reflexivity|]. cbn [map as_strs as_str]. rewrite IH.
  reflexivity.
Qed.

Lemma as_opt_str_json (x : option string) : as_opt_str (json_opt JStr x) = Some x.
Proof. destruct x; reflexivity. Qed.

Lemma as_opt_num_json (x : option Z) : as_opt_num (json_opt JNum x) = Some x.
Proof. destruct x; reflexivity. Qed.

Lemma as_opt_time_json (x : option Z) : as_opt_time (json_opt JTime x) = Some x.
Proof. destruct x; reflexivity. Qed.

Lemma as_opt_bool_json (x : option bool) : as_opt_bool (json_opt JBool x) = Some x.
Proof. destruct x; reflexivity. Qed.

Lemma as_opt_strings_json (l : list string) :
  as_opt_strings (json_strings l) = Some (Some l).
Proof. unfold as_opt_strings, json_strings. rewrite as_strs_strings. reflexivity. Qed.

Lemma lookup_set_field_eq (k : string) (v : json) (fs : list (string * json)) :
  lookup_field k (set_field k v fs) = Some v.
Proof.
  induction fs as [|[k0 x] fs IH]; cbn [set_field lookup_field].
  - rewrite String.eqb_refl. reflexivity.
  - destruct (String.eqb k0 k) eqn:E; cbn [lookup_field]; rewrite E; auto.
Qed.

Lemma lookup_set_field_ne (k k' : string) (v : json) (fs : list (string * json)) :
  k <> k' -> lookup_field k' (set_field k v fs) = lookup_field k' fs.
Proof.
  intros Hne. induction fs as [|[k0 x] fs IH]; cbn [set_field lookup_field].
  - apply String.eqb_neq in Hne. rewrite Hne. reflexivity.
  - destruct (String.eqb k0 k) eqn:E; cbn [lookup_field].
    + apply String.eqb_eq in E. subst k0.
      apply String.eqb_neq in Hne. rewrite Hne. reflexivity.
    + rewrite IH. reflexivity.
Qed.

Lemma lookup_override_ne {A} (k k' : string) (f : A -> json) (v : option A)
    (fs : list (string * json)) :
  k <> k' -> lookup_field k' (override k f v fs) = lookup_field k' fs.
Proof.
  intros Hne. destruct v; cbn [override]; [apply lookup_set_field_ne; exact Hne|].
  reflexivity.
Qed.

Lemma lookup_override_eq {A} (k : string) (f : A -> json) (v : option A)
    (fs : list (string * json)) :
  lookup_field k (override k f v fs)
  = match v with Some a => Some (f a) | None => lookup_field k fs end.
Proof. destruct v; cbn [override]; [apply lookup_set_field_eq|reflexivity]. Qed.

Ltac through_overrides :=
  repeat (rewrite lookup_override_eq
          || (rewrite lookup_override_ne by discriminate)).

(** What [__str__] writes has one member for a key. *)
Lemma loads_Job_info (j : Job) : loads (Job_info j) = Job_info j.
Proof. reflexivity. Qed.

Lemma load_Job_str (j : Job) (o : Overrides) :
  load_from_str (Job_str j) o = Return (reloaded o j).
Proof.
  unfold load_from_str, Job_str. cbv beta iota zeta. rewrite loads_Job_info.
  change (lookup_field "status" (Job_info j)) with (Some (JStr (Status.name (status j)))).
  cbv beta iota. rewrite of_name_name.
  set (info := override _ _ _ _).
  assert (Hself : lookup_field "self" info = None)
    by (subst info; through_overrides; reflexivity).
  assert (Hcorpus : lookup_field "corpus_id" info = Some (JStr (corpus_id j)))
    by (subst info; through_overrides; reflexivity).
  assert (Huser : keyword "user_id" None as_opt_str info
                  = Some (supplied (o_user_id o) (user_id j))).
  { unfold keyword. subst info. through_overrides.
    destruct (o_user_id o); [reflexivity|]. cbn [lookup_field String.eqb Ascii.eqb Bool.eqb].
    apply as_opt_str_json. }
  assert (Hcontact : keyword "contact" None as_opt_str info
                     = Some (supplied (o_contact o) (contact j))).
  { unfold keyword. subst info. through_overrides.
    destruct (o_contact o); [reflexivity|]. cbn [lookup_field String.eqb Ascii.eqb Bool.eqb].
    apply as_opt_str_json. }
  assert (Hpid : keyword "pid" None as_opt_num info = Some (pid j)).
  { unfold keyword. subst info. through_overrides.
    cbn [lookup_field Job_info String.eqb Ascii.eqb Bool.eqb]. apply as_opt_num_json. }
  assert (Hstarted : keyword "started" None as_opt_time info = Some (started j)).
  { unfold keyword. subst info. through_overrides.
    cbn [lookup_field Job_info String.eqb Ascii.eqb Bool.eqb]. apply as_opt_time_json. }
  assert (Hdone : keyword "done" None as_opt_time info = Some (done j)).
  { unfold keyword. subst info. through_overrides.
    cbn [lookup_field Job_info String.eqb Ascii.eqb Bool.eqb]. apply as_opt_time_json. }
  assert (Hexports : keyword "sparv_exports" None as_opt_strings info
                     = Some (Some (default (sparv_exports j) (o_sparv_exports o)))).
  { unfold keyword. subst info. through_overrides.
    destruct (o_sparv_exports o); apply as_opt_strings_json. }
  assert (Hfiles : keyword "files" None as_opt_strings info
                   = Some (Some (default (files j) (o_files o)))).
  { unfold keyword. subst info. through_overrides.
    destruct (o_files o); apply as_opt_strings_json. }
  assert (Havailable : keyword "available_files" None as_opt_strings info
                       = Some (Some (default (available_files j) (o_available_files o)))).
  { unfold keyword. subst info. through_overrides.
    destruct (o_available_files o); apply as_opt_strings_json. }
  assert (Hscrambled : keyword "install_scrambled" None as_opt_bool info
                       = Some (supplied (o_install_scrambled o) (install_scrambled j))).
  { unfold keyword. subst info. through_overrides.
    destruct (o_install_scrambled o); [reflexivity|].
    cbn [lookup_field String.eqb Ascii.eqb Bool.eqb]. apply as_opt_bool_json. }
  assert (Hkorp : keyword "installed_korp" false as_bool info = Some (installed_korp j)).
  { unfold keyword. subst info. through_overrides. reflexivity. }
  assert (Hseconds : keyword "latest_seconds_taken" 0 as_num info
                     = Some (latest_seconds_taken j)).
  { unfold keyword. subst info. through_overrides. reflexivity. }
  unfold Job_of_info.
  rewrite Hself, Hcorpus, Huser, Hcontact, Hpid, Hstarted, Hdone, Hexports, Hfiles,
    Havailable, Hscrambled, Hkorp, Hseconds.
  reflexivity.
Qed.

Lemma lookup_name_member (order : list Status.t) (s : Status.t) :
  In s order -> Status.lookup_name order (Status.name s) = Some s.
Proof.
  unfold Status.lookup_name.
  induction order as [|m rest IH]; intros Hin; [destruct Hin|].
  cbn [find]. destruct (String.eqb (Status.name m) (Status.name s)) eqn:E.
  - apply String.eqb_eq, name_injective in E. congruence.
  - destruct Hin as [->|Hin]; [|auto].
    rewrite String.eqb_refl in E. discriminate E.
Qed.

Lemma all_members (s : Status.t) : In s Status.members.
Proof. destruct s; cbn; tauto. Qed.

Lemma save_stores (j : Job) (w : World) : save j w = (Return tt, j, stored j w).
Proof. reflexivity. Qed.

Lemma cache_stored (j : Job) (w : World) :
  cache (stored j w) !! corpus_id j = Some (Job_str j).
Proof. cbn. apply lookup_insert_eq. Qed.

Lemma backup_stored (j : Job) (w : World) :
  backup (stored j w) !! corpus_id j = Some (Job_str j).
Proof. cbn. apply lookup_insert_eq. Qed.

(** C5.  After [save], [get_job] on the same corpus id rebuilds the record
    with every persisted field as it was saved, except the fields for
    which the caller supplies a parameter; the record is written to the
    cache and to the backup file, its status as the text of the member's
    name, and looking a member up by that name gives the member back in
    whatever order the members are defined. *)
Theorem save_then_get_job (j : Job) (w : World) (o : Overrides) :
  save j w = (Return tt, j, stored j w) /\
  get_job (stored j w) (corpus_id j) o = Return (reloaded o j) /\
  cache (stored j w) !! corpus_id j = Some (Job_str j) /\
  backup (stored j w) !! corpus_id j = Some (Job_str j) /\
  lookup_field "status" (Job_info j) = Some (JStr (Status.name (status j))) /\
  (forall order : list Status.t,
     Permutation order Status.members ->
     Status.lookup_name order (Status.name (status j)) = Some (status j)).
Proof.
  split; [reflexivity|]. split.
  { unfold get_job, cache_get_job. rewrite cache_stored. apply load_Job_str. }
  split; [apply cache_stored|]. split; [apply backup_stored|].
  split; [reflexivity|].
  intros order Hperm. apply lookup_name_member.
  apply Permutation_in with (l := Status.members); [|apply all_members].
  symmetry. exact Hperm.
Qed.

Lemma save_then_get_job_witness :
  let j := with_progress_output "57%" (Sample.job Status.annotating (Some 4242)) in
  let o := mkOverrides None (Some "someone") None (Some ["a.xml"]) None None in
  get_job (stored j Sample.fresh) "demo-1" o
  = Return (mkJob "demo-1" (Some "user") (Some "someone") Status.annotating
              (Some 4242) (Some 1000000) None None ["xml_export:pretty"]
              ["a.xml"] [] None false 0 "0%") /\
  Permutation (rev Status.members) Status.members /\
  Status.lookup_name (rev Status.members) "annotating" = Some Status.annotating.
Proof.
  intros j o.
  pose proof (save_then_get_job j Sample.fresh o) as (_ & Hget & _ & _ & _ & Hname).
  split; [exact Hget|].
  assert (Hperm : Permutation (rev Status.members) Status.members)
    by (symmetry; apply Permutation_rev).
  split; [exact Hperm|]. exact (Hname (rev Status.members) Hperm).
Defined.

(** ** Elapsed time *)

Lemma with_latest_same (j : Job) :
  with_latest_seconds_taken (latest_seconds_taken j) j = j.
Proof. destruct j; reflexivity. Qed.

Lemma with_status_same (j : Job) : with_status (status j) j = j.
Proof. destruct j; reflexivity. Qed.

Lemma set_latest_seconds_taken_eq (seconds : Z) (j : Job) (w : World) :
  set_latest_seconds_taken seconds j w
  = (Return tt, with_latest_seconds_taken seconds j,
     if latest_seconds_taken j =? seconds then w
     else stored (with_latest_seconds_taken seconds j) w).
Proof.
  unfold set_latest_seconds_taken. run.
  destruct (latest_seconds_taken j =? seconds) eqn:E; cbn [negb].
  - apply Z.eqb_eq in E. subst seconds. rewrite with_latest_same. reflexivity.
  - reflexivity.
Qed.

Lemma running_not_waiting (s : Status.t) :
  Status.is_running s = true -> Status.is_waiting s = false.
Proof. destruct s; vm_compute; congruence. Qed.

Lemma seconds_taken_running_eq (env : Env) (j : Job) (w : World) (t0 : Z) :
  Status.is_running (status j) = true ->
  started j = Some t0 ->
  let seconds := Z.max (latest_seconds_taken j) (clock env (history w) - t0) in
  seconds_taken env j w
  = (Return seconds, with_latest_seconds_taken seconds j,
     if latest_seconds_taken j =? seconds then record ClockRead w
     else stored (with_latest_seconds_taken seconds j) (record ClockRead w)).
Proof.
  intros Hrun Hstart seconds. unfold seconds_taken. run.
  rewrite Hstart, (running_not_waiting _ Hrun), Hrun.
  fold seconds. rewrite set_latest_seconds_taken_eq. reflexivity.
Qed.

(** C7.  For a job whose status is running and that has a start time,
    [seconds_taken] is the larger of the last measured duration and the
    time since the start; a following call on the same job, whatever the
    clock then reads, gives at least the value of the call before. *)
Theorem seconds_taken_never_decreases (env : Env) (j : Job) (w : World) (t0 : Z) :
  Status.is_running (status j) = true ->
  started j = Some t0 ->
  exists (j1 : Job) (w1 : World),
    seconds_taken env j w
    = (Return (Z.max (latest_seconds_taken j) (clock env (history w) - t0)), j1, w1) /\
    forall (env' : Env) (w' : World),
    exists (again : Z) (j2 : Job) (w2 : World),
      seconds_taken env' j1 w' = (Return again, j2, w2) /\
      again = Z.max (latest_seconds_taken j1) (clock env' (history w') - t0) /\
      Z.max (latest_seconds_taken j) (clock env (history w) - t0) <= again.
Proof.
  intros Hrun Hstart.
  pose proof (seconds_taken_running_eq env j w t0 Hrun Hstart) as H1.
  cbv zeta in H1. eexists _, _. split; [exact H1|].
  intros env' w'.
  set (s1 := Z.max (latest_seconds_taken j) (clock env (history w) - t0)).
  assert (Hrun1 : Status.is_running (status (with_latest_seconds_taken s1 j)) = true)
    by (destruct j; exact Hrun).
  assert (Hstart1 : started (with_latest_seconds_taken s1 j) = Some t0)
    by (destruct j; exact Hstart).
  pose proof (seconds_taken_running_eq env' _ w' t0 Hrun1 Hstart1) as H2.
  cbv zeta in H2. eexists _, _, _. split; [exact H2|]. split; [reflexivity|].
  cbn [latest_seconds_taken with_latest_seconds_taken]. lia.
Qed.

Lemma seconds_taken_never_decreases_witness :
  let j := Sample.job Status.annotating (Some 4242) in
  let late := Sample.env_of (Sample.said 0 EmptyString EmptyString) false 9000000 in
  Status.is_running (status j) = true /\
  started j = Some 1000000 /\
  exists (j1 : Job) (w1 : World),
    seconds_taken late j Sample.fresh
    = (Return (Z.max 0 (9000000 - 1000000)), j1, w1) /\
    forall (env' : Env) (w' : World),
    exists (again : Z) (j2 : Job) (w2 : World),
      seconds_taken env' j1 w' = (Return again, j2, w2) /\
      again = Z.max (latest_seconds_taken j1) (clock env' (history w') - 1000000) /\
      Z.max 0 (9000000 - 1000000) <= again.
Proof.
  intros j late.
  assert (Hrun : Status.is_running (status j) = true) by reflexivity.
  assert (Hstart : started j = Some 1000000) by reflexivity.
  exact (conj Hrun (conj Hstart
           (seconds_taken_never_decreases late j Sample.fresh 1000000 Hrun Hstart))).
Defined.

Example clock_going_back :
  let j := Sample.job Status.annotating (Some 4242) in
  let late := Sample.env_of (Sample.said 0 EmptyString EmptyString) false 9000000 in
  let early := Sample.env_of (Sample.said 0 EmptyString EmptyString) false 4000000 in
  fst (fst (seconds_taken late j Sample.fresh)) = Return 8000000 /\
  fst (fst (seconds_taken early (snd (fst (seconds_taken late j Sample.fresh)))
              (snd (seconds_taken late j Sample.fresh)))) = Return 8000000.
Proof. split; reflexivity. Qed.

(** ** Effects of the setters *)

Lemma set_status_eq (s : Status.t) (j : Job) (w : World) :
  set_status s j w = (Return tt, with_status s j, after_set_status s j w).
Proof.
  unfold set_status, after_set_status. run.
  destruct (Status.eqb (status j) s) eqn:E; cbn [negb]; [|reflexivity].
  apply status_eqb_eq in E. subst s. rewrite with_status_same. reflexivity.
Qed.

Lemma set_pid_eq (p : option Z) (j : Job) (w : World) :
  set_pid p j w = (Return tt, with_pid p j, stored (with_pid p j) w).
Proof. reflexivity. Qed.

Lemma persisted_stored (j : Job) (w : World) :
  persisted (stored j w) (corpus_id j) = Some (reloaded no_overrides j).
Proof.
  unfold persisted, cache_get_job. rewrite cache_stored, load_Job_str. reflexivity.
Qed.

Lemma persisted_status_stored (j : Job) (w : World) :
  persisted_status (stored j w) (corpus_id j) = Some (status j).
Proof. unfold persisted_status. rewrite persisted_stored. reflexivity. Qed.

Lemma persisted_stored_at (j : Job) (w : World) (corpus : string) :
  corpus = corpus_id j ->
  persisted (stored j w) corpus = Some (reloaded no_overrides j).
Proof. intros ->. apply persisted_stored. Qed.

Lemma persisted_status_stored_at (j : Job) (w : World) (corpus : string) :
  corpus = corpus_id j ->
  persisted_status (stored j w) corpus = Some (status j).
Proof. intros ->. apply persisted_status_stored. Qed.

Lemma history_stored (j : Job) (w : World) :
  history (stored j w) = (history w ++ [Saved (corpus_id j) (Job_str j)])%list.
Proof. reflexivity. Qed.

Lemma remote_commands_app (h1 h2 : list Event) :
  remote_commands (h1 ++ h2)%list = (remote_commands h1 ++ remote_commands h2)%list.
Proof. apply omap_app. Qed.

Lemma waiting_not_aborted (s : Status.t) :
  Status.is_waiting s = true -> Status.eqb s Status.aborted = false.
Proof. destruct s; vm_compute; congruence. Qed.

Lemma running_not_aborted (s : Status.t) :
  Status.is_running s = true -> Status.eqb s Status.aborted = false.
Proof. destruct s; vm_compute; congruence. Qed.

(** ** Aborting *)

(** C2.  [abort_sparv] on a waiting job takes it out of the queue and sets
    the status aborted, with no remote command; on a job that is neither
    waiting nor running it raises [ProcessNotRunning]; on a running job
    without a recorded process id it raises [ProcessNotFound]; otherwise it
    sends the termination signal to the process id, and when the remote
    host reports success or that there is no such process it clears the
    process id and sets the status aborted, while any other remote error
    raises [JobError]. *)
Theorem abort_sparv_cases (env : Env) (j : Job) (w : World) :
  (Status.is_waiting (status j) = true ->
   exists w' : World,
     abort_sparv env j w = (Return tt, with_status Status.aborted j, w') /\
     remote_commands (history w') = remote_commands (history w) /\
     ~ In (corpus_id j) (job_queue w') /\
     persisted_status w' (corpus_id j) = Some Status.aborted) /\
  (Status.is_waiting (status j) = false ->
   Status.is_running (status j) = false ->
   exists msg : string,
     abort_sparv env j w = (Raise (ProcessNotRunning msg), j, w)) /\
  (Status.is_running (status j) = true ->
   pid_recorded (pid j) = false ->
   exists msg : string,
     abort_sparv env j w = (Raise (ProcessNotFound msg), j, w)) /\
  (forall n : Z,
     Status.is_running (status j) = true ->
     pid j = Some n -> n <> 0 ->
     let p := ssh_run env (history w) (KillTerm n) in
     (returncode p = 0 \/ no_such_process (stderr p) = true ->
      exists w' : World,
        abort_sparv env j w
        = (Return tt, with_status Status.aborted (with_pid None j), w') /\
        remote_commands (history w') = (remote_commands (history w) ++ [KillTerm n])%list /\
        persisted w' (corpus_id j)
        = Some (reloaded no_overrides (with_status Status.aborted (with_pid None j)))) /\
     (returncode p <> 0 -> no_such_process (stderr p) = false ->
      exists msg : string,
        abort_sparv env j w = (Raise (JobError msg), j, record (Ssh (KillTerm n)) w))).
Proof.
  split; [|split; [|split; [|intros n Hrun Hpid Hn p; split]]].
  - intros Hwait. unfold abort_sparv. run. rewrite Hwait.
    unfold queue_remove. run. rewrite set_status_eq. unfold after_set_status.
    rewrite (waiting_not_aborted _ Hwait).
    eexists. split; [reflexivity|]. split; [|split].
    + rewrite history_stored. cbn [history record dequeue].
      rewrite !remote_commands_app. cbn. rewrite !app_nil_r. reflexivity.
    + cbn [job_queue stored record write_backup cache_set_job dequeue].
      intros Hin. apply filter_In in Hin as [_ Hne].
      rewrite String.eqb_refl in Hne. discriminate Hne.
    + apply persisted_status_stored_at. reflexivity.
  - intros Hwait Hrun. unfold abort_sparv. run. rewrite Hwait, Hrun.
    eexists. reflexivity.
  - intros Hrun Hpid. unfold abort_sparv. run.
    rewrite (running_not_waiting _ Hrun), Hrun. cbn [negb].
    destruct (pid j) as [n|]; [|eexists; reflexivity].
    rewrite Hpid. eexists. reflexivity.
  - intros Hok. subst p. unfold abort_sparv. run.
    rewrite (running_not_waiting _ Hrun), Hrun, Hpid. cbn [negb pid_recorded].
    apply Z.eqb_neq in Hn. rewrite Hn. cbn [negb].
    set (p := ssh_run env (history w) (KillTerm n)) in *.
    assert (Hfinish :
      exists w' : World,
        (match set_pid None j (record (Ssh (KillTerm n)) w) with
         | (Return _, j', w') => set_status Status.aborted j' w'
         | (Raise e, j', w') => (Raise e, j', w')
         end)
        = (Return tt, with_status Status.aborted (with_pid None j), w') /\
        remote_commands (history w') = (remote_commands (history w) ++ [KillTerm n])%list /\
        persisted w' (corpus_id j)
        = Some (reloaded no_overrides (with_status Status.aborted (with_pid None j)))).
    { rewrite set_pid_eq, set_status_eq. unfold after_set_status.
      cbn [status with_pid]. rewrite (running_not_aborted _ Hrun).
      eexists. split; [reflexivity|]. split.
      - rewrite !history_stored. cbn [history record].
        rewrite !remote_commands_app. cbn. rewrite !app_nil_r. reflexivity.
      - apply persisted_stored_at. reflexivity. }
    destruct (returncode p =? 0) eqn:Ecode; [exact Hfinish|].
    destruct Hok as [Hzero|Hgone].
    + apply Z.eqb_neq in Ecode. contradiction.
    + rewrite Hgone. exact Hfinish.
  - intros Hcode Hgone. subst p. unfold abort_sparv. run.
    rewrite (running_not_waiting _ Hrun), Hrun, Hpid. cbn [negb pid_recorded].
    apply Z.eqb_neq in Hn. rewrite Hn. cbn [negb].
    apply Z.eqb_neq in Hcode. rewrite Hcode, Hgone.
    eexists. reflexivity.
Qed.

Lemma abort_sparv_cases_witness :
  let env := Sample.env_of
               (Sample.said 1 EmptyString ("kill: (4242) - No such process" ++ Text.newline))
               false 0 in
  let queued := Sample.job Status.waiting None in
  let running := Sample.job Status.annotating (Some 4242) in
  (Status.is_waiting (status queued) = true /\
   exists w' : World,
     abort_sparv env queued (Sample.holding queued)
     = (Return tt, with_status Status.aborted queued, w') /\
     remote_commands (history w') = [] /\
     ~ In "demo-1" (job_queue w') /\
     persisted_status w' "demo-1" = Some Status.aborted) /\
  (Status.is_running (status running) = true /\
   pid running = Some 4242 /\ 4242 <> 0 /\
   no_such_process (stderr (ssh_run env [] (KillTerm 4242))) = true /\
   exists w' : World,
     abort_sparv env running (Sample.holding running)
     = (Return tt, with_status Status.aborted (with_pid None running), w') /\
     remote_commands (history w') = [KillTerm 4242] /\
     persisted w' "demo-1"
     = Some (reloaded no_overrides (with_status Status.aborted (with_pid None running)))).
Proof.
  intros env queued running. split.
  - assert (Hwait : Status.is_waiting (status queued) = true) by reflexivity.
    split; [exact Hwait|].
    exact (proj1 (abort_sparv_cases env queued (Sample.holding queued)) Hwait).
  - assert (Hrun : Status.is_running (status running) = true) by reflexivity.
    assert (Hpid : pid running = Some 4242) by reflexivity.
    assert (Hn : 4242 <> 0) by lia.
    assert (Hgone : no_such_process (stderr (ssh_run env [] (KillTerm 4242))) = true)
      by reflexivity.
    split; [exact Hrun|]. split; [exact Hpid|]. split; [exact Hn|].
    split; [exact Hgone|].
    exact (proj1 (proj2 (proj2 (proj2
             (abort_sparv_cases env running (Sample.holding running))))
             4242 Hrun Hpid Hn) (or_intror Hgone)).
Defined.

(** ** What [get_output] and the probe leave alone *)

Lemma parse_line_frame (env : Env) (line : string) (st : Parsed)
    (j j1 : Job) (w w1 : World) (r : Outcome Parsed) :
  parse_line env line st j w = (r, j1, w1) ->
  w1 = w /\ j1 = with_sparv_done (sparv_done j1) j.
Proof.
  assert (Hsame : j = with_sparv_done (sparv_done j) j) by (destruct j; reflexivity).
  unfold parse_line. run.
  destruct (Regex.tagged line) as [[tag group2]|].
  { destruct (String.eqb tag "PROGRESS"); [intros [= <- <- <-]; auto|].
    destruct (String.eqb tag "WARNING"); [intros [= <- <- <-]; auto|].
    destruct (String.eqb tag "ERROR"); intros [= <- <- <-]; auto. }
  destruct (Regex.continuation line); [intros [= <- <- <-]; auto|].
  destruct (Regex.real_time line).
  { destruct (seconds_of_text env _); [|intros [= <- <- <-]; auto].
    destruct (started j); intros [= <- <- <-]; auto. }
  destruct (Regex.user_sys line); [intros [= <- <- <-]; auto|].
  destruct (truthy _); intros [= <- <- <-]; auto.
Qed.

Lemma parse_lines_frame (env : Env) (lines : list string) (st : Parsed)
    (j j1 : Job) (w w1 : World) (r : Outcome Parsed) :
  parse_lines env lines st j w = (r, j1, w1) ->
  w1 = w /\ j1 = with_sparv_done (sparv_done j1) j.
Proof.
  revert st j w. induction lines as [|line rest IH]; intros st j w.
  - cbn [parse_lines]. run. intros [= <- <- <-]. split; [reflexivity|].
    destruct j; reflexivity.
  - cbn [parse_lines]. run.
    destruct (parse_line env line st j w) as [[[st'|e] j'] w'] eqn:E;
      apply parse_line_frame in E as [-> Hj'].
    + intros Hrest. apply IH in Hrest as [-> Hj1]. split; [reflexivity|].
      rewrite Hj1, Hj'. destruct j; reflexivity.
    + intros [= <- <- <-]. auto.
Qed.

(** [get_output] changes no attribute but [sparv_done] and
    [progress_output], and nothing of the world but the history. *)
Lemma get_output_frame (env : Env) (j j1 : Job) (w w1 : World)
    (r : Outcome (string * string * string)) :
  get_output env j w = (r, j1, w1) ->
  j1 = with_progress_output (progress_output j1) (with_sparv_done (sparv_done j1) j)
  /\ (w1 = w \/ w1 = record (Ssh (CatNohup (corpus_id j))) w).
Proof.
  assert (Hsame : j = with_progress_output (progress_output j)
                        (with_sparv_done (sparv_done j) j))
    by (destruct j; reflexivity).
  unfold get_output. run.
  destruct (negb (Status.has_process_output (status j)));
    [intros [= <- <- <-]; auto|].
  match goal with
  | |- context [truthy (if ?a then ?b else ?c)] =>
      destruct (truthy (if a then b else c)); [|intros [= <- <- <-]; auto]
  end.
  match goal with
  | |- context [parse_lines env ?ls parsed_start j ?w0] =>
      destruct (parse_lines env ls parsed_start j w0) as [[[st|e] j'] w'] eqn:E
  end;
    apply parse_lines_frame in E as [-> Hj']; intros [= <- <- <-].
  - split; [|right; reflexivity]. rewrite Hj'. destruct j; reflexivity.
  - split; [|right; reflexivity]. rewrite Hj'. destruct j; reflexivity.
Qed.

Lemma probe_alive (env : Env) (j : Job) (w : World) (n : Z) :
  pid j = Some n -> n <> 0 ->
  returncode (ssh_run env (history w) (KillProbe n)) = 0 ->
  probe env j w = (Return true, j, record (Ssh (KillProbe n)) w).
Proof.
  intros Hpid Hn Hcode. unfold probe. run. rewrite Hpid. cbn [pid_recorded].
  apply Z.eqb_neq in Hn. rewrite Hn. cbn [negb]. rewrite Hcode. reflexivity.
Qed.

Lemma probe_dead (env : Env) (j : Job) (w : World) (n : Z) :
  pid j = Some n -> n <> 0 ->
  returncode (ssh_run env (history w) (KillProbe n)) <> 0 ->
  probe env j w
  = (Return false, with_pid None j,
     stored (with_pid None j) (record (Ssh (KillProbe n)) w)).
Proof.
  intros Hpid Hn Hcode. unfold probe. run. rewrite Hpid. cbn [pid_recorded].
  apply Z.eqb_neq in Hn. rewrite Hn. cbn [negb].
  apply Z.eqb_neq in Hcode. rewrite Hcode. reflexivity.
Qed.

Lemma probe_no_pid (env : Env) (j : Job) (w : World) :
  pid_recorded (pid j) = false ->
  probe env j w = (Return false, j, w).
Proof.
  intros Hpid. unfold probe. run. destruct (pid j) as [n|]; [|reflexivity].
  rewrite Hpid. reflexivity.
Qed.

Lemma probe_cases (env : Env) (j : Job) (w : World) :
  (exists n, pid j = Some n /\ n <> 0 /\
             returncode (ssh_run env (history w) (KillProbe n)) = 0) \/
  (exists n, pid j = Some n /\ n <> 0 /\
             returncode (ssh_run env (history w) (KillProbe n)) <> 0) \/
  pid_recorded (pid j) = false.
Proof.
  destruct (pid j) as [n|]; [|right; right; reflexivity].
  destruct (Z.eq_dec n 0) as [->|Hn]; [right; right; reflexivity|].
  destruct (Z.eq_dec (returncode (ssh_run env (history w) (KillProbe n))) 0);
    [left|right; left]; exists n; auto.
Qed.



(** ** When the parser returns *)




(** ** The rule for a run with nothing to do *)



(** ** Reconciliation *)


(** ** What the operations write *)

Lemma persisted_status_after_set (s : Status.t) (j : Job) (w : World) (corpus : string) :
  corpus = corpus_id j ->
  (status j = s -> persisted_status w corpus = Some s) ->
  persisted_status (after_set_status s j w) corpus = Some s.
Proof.
  intros Hcorpus Hsame. unfold after_set_status.
  destruct (Status.eqb (status j) s) eqn:E.
  - apply Hsame, status_eqb_eq, E.
  - apply persisted_status_stored_at. exact Hcorpus.
Qed.

Lemma written_refl (P : Job -> Prop) (w : World) : written P w w.
Proof. exists []. split; [symmetry; apply app_nil_r|]. intros ? ? []. Qed.

Lemma written_trans (P : Job -> Prop) (w1 w2 w3 : World) :
  written P w1 w2 -> written P w2 w3 -> written P w1 w3.
Proof.
  intros (e1 & H1 & P1) (e2 & H2 & P2). exists (e1 ++ e2)%list. split.
  - rewrite H2, H1, app_assoc. reflexivity.
  - intros corpus dump Hin. apply in_app_or in Hin as [Hin|Hin]; eauto.
Qed.

Lemma written_record (P : Job -> Prop) (e : Event) (w : World) :
  (forall corpus dump, e <> Saved corpus dump) ->
  written P w (record e w).
Proof.
  intros Hne. exists [e]. split; [reflexivity|].
  intros corpus dump [->|[]]. exfalso. exact (Hne corpus dump eq_refl).
Qed.

Lemma written_stored (P : Job -> Prop) (j : Job) (w : World) :
  P j -> written P w (stored j w).
Proof.
  intros HP. exists [Saved (corpus_id j) (Job_str j)]. split; [reflexivity|].
  intros corpus dump [[= <- <-]|[]]. exists j. auto.
Qed.

Lemma written_after_set_status (P : Job -> Prop) (s : Status.t) (j : Job) (w : World) :
  P (with_status s j) -> written P w (after_set_status s j w).
Proof.
  intros HP. unfold after_set_status. destruct (Status.eqb (status j) s).
  - apply written_refl.
  - apply written_stored, HP.
Qed.

Lemma reset_time_eq (j : Job) (w : World) :
  reset_time j w = (Return tt, cleared j, stored (cleared j) w).
Proof. reflexivity. Qed.

(** [run_sparv], outcome by outcome. *)
Lemma run_sparv_eq (env : Env) (j : Job) (w : World) :
  let t := clock env (history w) in
  let cmd := RunScript (corpus_id j) (sparv_exports j) (files j) in
  let p := ssh_run env (history (record ClockRead w)) cmd in
  let w1 := record (Ssh cmd) (record ClockRead w) in
  let j1 := with_started (Some (whole_seconds t)) j in
  run_sparv env j w
  = if negb (returncode p =? 0) then
      (Raise (JobError ("Failed to run Sparv! " ++ stderr p)),
       with_status Status.error (cleared j1),
       after_set_status Status.error (cleared j1) (stored (cleared j1) w1))
    else
      match PyInt.parse (stdout p) with
      | Some n =>
          (Return tt,
           with_status Status.annotating (with_pid (Some n) j1),
           after_set_status Status.annotating (with_pid (Some n) j1)
             (stored (with_pid (Some n) j1) w1))
      | None => (Raise ValueError, j1, w1)
      end.
Proof.
  intros t cmd p w1 j1. unfold run_sparv. run. fold t cmd p.
  destruct (negb (returncode p =? 0)).
  - rewrite reset_time_eq. run. rewrite set_status_eq. reflexivity.
  - destruct (PyInt.parse (stdout p)) as [n|]; [|reflexivity].
    rewrite set_pid_eq. run. rewrite set_status_eq. reflexivity.
Qed.


(** ** Starting an annotation *)




(** ** Aborting and removing *)

(** [abort_sparv], outcome by outcome. *)
Lemma abort_sparv_eq (env : Env) (j : Job) (w : World) :
  abort_sparv env j w
  = if Status.is_waiting (status j) then
      (Return tt, with_status Status.aborted j,
       after_set_status Status.aborted j (dequeue (corpus_id j) w))
    else if negb (Status.is_running (status j)) then
      (Raise (ProcessNotRunning "Failed to abort job because Sparv was not running!"),
       j, w)
    else
      match pid j with
      | Some n =>
          if pid_recorded (Some n) then
            let p := ssh_run env (history w) (KillTerm n) in
            if (returncode p =? 0) || no_such_process (stderr p) then
              (Return tt, with_status Status.aborted (with_pid None j),
               after_set_status Status.aborted (with_pid None j)
                 (stored (with_pid None j) (record (Ssh (KillTerm n)) w)))
            else
              (Raise (JobError ("Failed to abort job! Error: '" ++ stderr p ++ "'")),
               j, record (Ssh (KillTerm n)) w)
          else
            (Raise (ProcessNotFound "Failed to abort job because no process ID was found!"),
             j, w)
      | None =>
          (Raise (ProcessNotFound "Failed to abort job because no process ID was found!"),
           j, w)
      end.
Proof.
  unfold abort_sparv. run.
  destruct (Status.is_waiting (status j)).
  { unfold queue_remove. rewrite set_status_eq. reflexivity. }
  destruct (negb (Status.is_running (status j))); [reflexivity|].
  destruct (pid j) as [n|]; [|reflexivity].
  destruct (pid_recorded (Some n)); [|reflexivity].
  cbv zeta. destruct (returncode _ =? 0); cbn [orb].
  { rewrite set_pid_eq. run. rewrite set_status_eq. reflexivity. }
  destruct (no_such_process _); [|reflexivity].
  rewrite set_pid_eq. run. rewrite set_status_eq. reflexivity.
Qed.

(** A raise of [abort_sparv] leaves the job and the stores as they were,
    and on a running job it is no [ProcessNotRunning]. *)
Lemma abort_sparv_raises (env : Env) (j j' : Job) (w w' : World) (e : Exn) :
  abort_sparv env j w = (Raise e, j', w') ->
  j' = j /\ cache w' = cache w /\ backup w' = backup w /\
  (Status.is_running (status j) = true -> is_ProcessNotRunning e = false).
Proof.
  rewrite abort_sparv_eq.
  destruct (Status.is_waiting (status j)); [discriminate|].
  destruct (Status.is_running (status j)); cbn [negb].
  2: { intros [= <- <- <-]. repeat split; discriminate. }
  destruct (pid j) as [n|]; [|intros [= <- <- <-]; auto].
  destruct (pid_recorded (Some n)); [|intros [= <- <- <-]; auto].
  cbv zeta. destruct (_ || _); [discriminate|].
  intros [= <- <- <-]. auto.
Qed.

Lemma abort_sparv_returns (env : Env) (j j' : Job) (w w' : World) :
  abort_sparv env j w = (Return tt, j', w') ->
  corpus_id j' = corpus_id j /\ status j' = Status.aborted.
Proof.
  rewrite abort_sparv_eq.
  destruct (Status.is_waiting (status j)); [intros [= <- <-]; auto|].
  destruct (negb (Status.is_running (status j))); [discriminate|].
  destruct (pid j) as [n|]; [|discriminate].
  destruct (pid_recorded (Some n)); [|discriminate].
  cbv zeta. destruct (_ || _); [|discriminate].
  intros [= <- <-]. auto.
Qed.

Lemma annotating_is_running (s : Status.t) :
  s = Status.annotating -> Status.is_running s = true.
Proof. intros ->. reflexivity. Qed.

Lemma not_running_not_annotating (s : Status.t) :
  Status.is_running s = false -> Status.eqb s Status.annotating = false.
Proof. destruct s; vm_compute; congruence. Qed.

(** C9, as the code has it.  On a job whose status is annotating,
    [remove] without the abort flag raises [JobError] and deletes nothing;
    with the flag it aborts the job first, and deletes the record from the
    cache and from the backup when the abort returns, while a raise of the
    abort is passed on with nothing deleted.  On a job that is not running
    [remove] deletes the record from both, with or without the flag. *)
Theorem remove_cases (env : Env) (j : Job) (w : World) :
  (status j = Status.annotating ->
   exists msg : string, remove env false j w = (Raise (JobError msg), j, w)) /\
  (Status.is_running (status j) = false ->
   forall abort : bool,
   exists w' : World,
     remove env abort j w = (Return tt, j, w') /\
     cache w' !! corpus_id j = None /\ backup w' !! corpus_id j = None) /\
  (status j = Status.annotating ->
   forall (j' : Job) (w' : World),
     abort_sparv env j w = (Return tt, j', w') ->
     exists w'' : World,
       remove env true j w = (Return tt, j', w'') /\
       cache w'' !! corpus_id j = None /\ backup w'' !! corpus_id j = None) /\
  (status j = Status.annotating ->
   forall (e : Exn) (j' : Job) (w' : World),
     abort_sparv env j w = (Raise e, j', w') ->
     remove env true j w = (Raise e, j, w') /\
     cache w' = cache w /\ backup w' = backup w).
Proof.
  split; [|split; [|split]].
  - intros Hs. unfold remove. run. rewrite Hs, status_eqb_refl.
    eexists. reflexivity.
  - intros Hrun abort. unfold remove. run.
    rewrite (not_running_not_annotating _ Hrun).
    eexists. split; [reflexivity|].
    cbn [cache backup record unlink_backup cache_remove_job].
    split; apply lookup_delete_eq.
  - intros Hs j' w' Habort. unfold remove. run. rewrite Hs, status_eqb_refl.
    rewrite Habort. eexists. split; [reflexivity|].
    cbn [cache backup record unlink_backup cache_remove_job].
    split; apply lookup_delete_eq.
  - intros Hs e j' w' Habort.
    destruct (abort_sparv_raises env j j' w w' e Habort) as (-> & Hc & Hb & Hnot).
    split; [|auto].
    unfold remove. run. rewrite Hs, status_eqb_refl. rewrite Habort.
    rewrite Hs in Hnot. rewrite (Hnot eq_refl). reflexivity.
Qed.

Lemma remove_cases_witness :
  let env := Sample.env_of (Sample.said 0 EmptyString EmptyString) false 0 in
  let running := Sample.job Status.annotating (Some 4242) in
  let finished := Sample.job Status.done_syncing None in
  (status running = Status.annotating /\
   exists msg : string,
     remove env false running (Sample.holding running)
     = (Raise (JobError msg), running, Sample.holding running)) /\
  (Status.is_running (status finished) = false /\
   exists w' : World,
     remove env false finished (Sample.holding finished) = (Return tt, finished, w') /\
     cache w' !! "demo-1" = None /\ backup w' !! "demo-1" = None) /\
  (exists (j' : Job) (w' w'' : World),
     abort_sparv env running (Sample.holding running) = (Return tt, j', w') /\
     remove env true running (Sample.holding running) = (Return tt, j', w'') /\
     cache w'' !! "demo-1" = None /\ backup w'' !! "demo-1" = None).
Proof.
  intros env running finished.
  pose proof (remove_cases env running (Sample.holding running))
    as (Hplain & _ & Hforced & _).
  pose proof (remove_cases env finished (Sample.holding finished))
    as (_ & Hidle & _ & _).
  assert (Hs : status running = Status.annotating) by reflexivity.
  assert (Hidle' : Status.is_running (status finished) = false) by reflexivity.
  split; [split; [exact Hs|exact (Hplain Hs)]|].
  split; [split; [exact Hidle'|exact (Hidle Hidle' false)]|].
  destruct (abort_sparv env running (Sample.holding running)) as [[r j'] w'] eqn:E.
  assert (Hr : r = Return tt) by (vm_compute in E; congruence).
  subst r. destruct (Hforced Hs j' w' eq_refl) as (w'' & Hrem & Hc & Hb).
  exists j', w', w''. auto.
Defined.

(** C9 as stated fails on the code.  A forced removal of an annotating job
    whose abort fails (the remote host cannot be reached) raises
    [JobError] and leaves the record in the cache and in the backup; and
    a plain removal of an installing job deletes its record. *)
Lemma remove_forced_or_installing :
  let refused :=
    Sample.env_of
      (Sample.said 255 EmptyString "ssh: connect to host sparv port 22: Connection refused")
      false 0 in
  let running := Sample.job Status.annotating (Some 4242) in
  let installing := Sample.job Status.installing (Some 4242) in
  (fst (fst (remove refused true running (Sample.holding running)))
   = Raise (JobError ("Failed to abort job! Error: 'ssh: connect to host sparv port 22: "
                      ++ "Connection refused'")) /\
   cache (snd (remove refused true running (Sample.holding running))) !! "demo-1"
   = Some (Job_str running) /\
   backup (snd (remove refused true running (Sample.holding running))) !! "demo-1"
   = Some (Job_str running)) /\
  (fst (fst (remove refused false installing (Sample.holding installing))) = Return tt /\
   cache (snd (remove refused false installing (Sample.holding installing))) !! "demo-1"
   = None /\
   backup (snd (remove refused false installing (Sample.holding installing))) !! "demo-1"
   = None).
Proof. intros refused running installing. repeat split; vm_compute; reflexivity. Qed.

(** ** The synchronisations and the local paths *)

(** [sync_to_sparv] saves the status syncing_corpus and stops at
    [utils.get_corpora_dir(mkdir=True)]. *)
Lemma sync_to_sparv_eq (env : Env) (j : Job) (w : World) :
  sync_to_sparv env j w
  = (Raise TypeError, with_status Status.syncing_corpus j,
     after_set_status Status.syncing_corpus j w).
Proof. unfold sync_to_sparv. run. rewrite set_status_eq. reflexivity. Qed.

(** [sync_results] stops at [utils.get_corpus_dir(self.corpus_id,
    mkdir=True)]. *)
Lemma sync_results_eq (env : Env) (j : Job) (w : World) :
  sync_results env j w = (Raise TypeError, j, w).
Proof. reflexivity. Qed.

(** [run_sparv] ends in annotating, or raises [JobError] with the status
    error in the object and in the store, or raises on the echoed text
    with status and process id as they were. *)
Lemma run_sparv_outcome (env : Env) (j : Job) (w : World) :
  exists (r : Outcome unit) (j' : Job) (w' : World),
    run_sparv env j w = (r, j', w') /\
    match r with
    | Return _ => status j' = Status.annotating
    | Raise (JobError _) =>
        status j' = Status.error /\ pid j' = pid j /\
        persisted_status w' (corpus_id j) = Some Status.error
    | Raise _ => status j' = status j /\ pid j' = pid j
    end.
Proof.
  rewrite run_sparv_eq. cbv zeta.
  destruct (negb _).
  - eexists _, _, _. split; [reflexivity|]. split; [reflexivity|].
    split; [reflexivity|].
    apply persisted_status_after_set; [reflexivity|]. intros Hs.
    rewrite <- Hs. apply persisted_status_stored_at. reflexivity.
  - destruct (PyInt.parse _); eexists _, _, _; (split; [reflexivity|]);
      repeat split; reflexivity.
Qed.

(** The world in which [install_korp] has extended the list of installs
    of the configuration. *)
Lemma install_korp_eq (env : Env) (j : Job) (w : World) :
  let variant :=
    if default false (install_scrambled j)
    then "cwb:install_corpus_scrambled" else "cwb:install_corpus" in
  let w0 := mkWorld (cache w) (backup w) (job_queue w)
                    (default_installs w ++ [variant]) (history w) in
  let t := clock env (history w) in
  let cmd := InstallScript (corpus_id j) (default_installs w ++ [variant]) in
  let p := ssh_run env (history (record ClockRead w0)) cmd in
  let w1 := record (Ssh cmd) (record ClockRead w0) in
  let j1 := with_started (Some (whole_seconds t)) j in
  install_korp env j w
  = if negb (returncode p =? 0) then
      (Raise (JobError ("Failed to install corpus with Sparv. " ++ stderr p)),
       with_status Status.error (cleared j1),
       after_set_status Status.error (cleared j1) (stored (cleared j1) w1))
    else
      match PyInt.parse (stdout p) with
      | Some n =>
          (Return tt,
           with_status Status.installing
             (with_pid (Some n) (with_installed_korp true j1)),
           after_set_status Status.installing
             (with_pid (Some n) (with_installed_korp true j1))
             (stored (with_pid (Some n) (with_installed_korp true j1)) w1))
      | None => (Raise ValueError, with_installed_korp true j1, w1)
      end.
Proof.
  intros variant w0 t cmd p w1 j1. unfold install_korp. run.
  fold variant. cbn [default_installs history]. fold w0 t cmd p.
  destruct (negb (returncode p =? 0)).
  - rewrite reset_time_eq. run. rewrite set_status_eq. reflexivity.
  - destruct (PyInt.parse (stdout p)) as [n|]; [|reflexivity].
    rewrite set_pid_eq. run. rewrite set_status_eq. reflexivity.
Qed.

(** [install_korp], in the same way. *)
Lemma install_korp_outcome (env : Env) (j : Job) (w : World) :
  exists (r : Outcome unit) (j' : Job) (w' : World),
    install_korp env j w = (r, j', w') /\
    match r with
    | Return _ => status j' = Status.installing
    | Raise (JobError _) =>
        status j' = Status.error /\ pid j' = pid j /\
        persisted_status w' (corpus_id j) = Some Status.error
    | Raise _ => status j' = status j /\ pid j' = pid j
    end.
Proof.
  rewrite install_korp_eq. cbv zeta.
  destruct (negb _).
  - eexists _, _, _. split; [reflexivity|]. split; [reflexivity|].
    split; [reflexivity|].
    apply persisted_status_after_set; [reflexivity|]. intros Hs.
    rewrite <- Hs. apply persisted_status_stored_at. reflexivity.
  - destruct (PyInt.parse _); eexists _, _, _; (split; [reflexivity|]);
      repeat split; reflexivity.
Qed.







(** ** Failures and the persisted status *)




(** ** The process id and the running status *)

Lemma unrecorded_pid_is_fine (j : Job) :
  pid_recorded (pid j) = false -> pid_only_while_running j.
Proof. unfold pid_only_while_running. intros ->. discriminate. Qed.

Lemma running_is_fine (j : Job) :
  Status.is_running (status j) = true -> pid_only_while_running j.
Proof. unfold pid_only_while_running. auto. Qed.

Lemma idle_has_no_pid (j : Job) :
  pid_only_while_running j -> Status.is_running (status j) = false ->
  pid_recorded (pid j) = false.
Proof.
  unfold pid_only_while_running. intros HP Hidle.
  destruct (pid_recorded (pid j)); [|reflexivity].
  rewrite (HP eq_refl) in Hidle. discriminate Hidle.
Qed.

Lemma not_saved_ssh (cmd : RemoteCmd) (corpus : string) (dump : json) :
  Ssh cmd <> Saved corpus dump.
Proof. discriminate. Qed.

Lemma not_saved_dequeued (c corpus : string) (dump : json) :
  Dequeued c <> Saved corpus dump.
Proof. discriminate. Qed.

Lemma written_dequeue (P : Job -> Prop) (corpus : string) (w : World) :
  written P w (dequeue corpus w).
Proof.
  exists [Dequeued corpus]. split; [reflexivity|].
  intros c d [H|[]]. discriminate H.
Qed.

Lemma written_pid_then_status (P : Job -> Prop) (s : Status.t) (j : Job)
    (e : Event) (w : World) :
  P j -> P (with_status s j) ->
  (forall corpus dump, e <> Saved corpus dump) ->
  written P w (after_set_status s j (stored j (record e w))).
Proof.
  intros Hj Hs He.
  apply written_trans with (w2 := record e w); [apply written_record, He|].
  apply written_trans with (w2 := stored j (record e w));
    [apply written_stored, Hj|].
  apply written_after_set_status, Hs.
Qed.

(** [abort_sparv] keeps the invariant, in its result and in every record
    it saves. *)
Lemma abort_sparv_keeps (env : Env) (j j' : Job) (w w' : World) (r : Outcome unit) :
  pid_only_while_running j ->
  abort_sparv env j w = (r, j', w') ->
  pid_only_while_running j' /\ written pid_only_while_running w w'.
Proof.
  intros HP. rewrite abort_sparv_eq.
  destruct (Status.is_waiting (status j)) eqn:Hwait.
  { assert (Hidle : Status.is_running (status j) = false)
      by (destruct (status j); vm_compute in Hwait |- *; congruence).
    assert (Hok : pid_only_while_running (with_status Status.aborted j)).
    { apply unrecorded_pid_is_fine. exact (idle_has_no_pid j HP Hidle). }
    intros [= <- <- <-]. split; [exact Hok|].
    eapply written_trans; [apply written_dequeue|].
    apply written_after_set_status. exact Hok. }
  destruct (negb (Status.is_running (status j)));
    [intros [= <- <- <-]; split; [exact HP|apply written_refl]|].
  destruct (pid j) as [n|] eqn:Hpid;
    [|intros [= <- <- <-]; split; [exact HP|apply written_refl]].
  destruct (pid_recorded (Some n));
    [|intros [= <- <- <-]; split; [exact HP|apply written_refl]].
  cbv zeta. destruct (_ || _); intros [= <- <- <-].
  - split; [apply unrecorded_pid_is_fine; reflexivity|].
    apply written_pid_then_status;
      [apply unrecorded_pid_is_fine; reflexivity
      |apply unrecorded_pid_is_fine; reflexivity
      |apply not_saved_ssh].
  - split; [exact HP|]. apply written_record, not_saved_ssh.
Qed.

Lemma get_output_written (P : Job -> Prop) (env : Env) (j j1 : Job) (w w1 : World)
    (r : Outcome (string * string * string)) :
  get_output env j w = (r, j1, w1) ->
  pid j1 = pid j /\ written P w w1.
Proof.
  intros H. apply get_output_frame in H as [Hj [->| ->]].
  - split; [rewrite Hj; destruct j; reflexivity|apply written_refl].
  - split; [rewrite Hj; destruct j; reflexivity|].
    apply written_record, not_saved_ssh.
Qed.

(** [process_running] keeps the invariant, in its result and in every
    record it saves. *)
Lemma process_running_keeps (env : Env) (j j' : Job) (w w' : World) (r : Outcome bool) :
  pid_only_while_running j ->
  process_running env j w = (r, j', w') ->
  pid_only_while_running j' /\ written pid_only_while_running w w'.
Proof.
  intros HP. unfold process_running. run.
  assert (Hprobe :
    (exists n, probe env j w = (Return true, j, record (Ssh (KillProbe n)) w)) \/
    (exists j0 w0, probe env j w = (Return false, j0, w0) /\
                   pid_recorded (pid j0) = false /\
                   written pid_only_while_running w w0)).
  { destruct (probe_cases env j w) as [(n & Hp & Hn & Hc)|[(n & Hp & Hn & Hc)|Hnone]].
    - left. exists n. apply probe_alive; assumption.
    - right. eexists _, _. split; [apply (probe_dead env j w n Hp Hn Hc)|].
      split; [reflexivity|].
      eapply written_trans; [apply written_record, not_saved_ssh|].
      apply written_stored, unrecorded_pid_is_fine. reflexivity.
    - right. eexists _, _. split; [apply (probe_no_pid env j w Hnone)|].
      split; [exact Hnone|apply written_refl]. }
  destruct Hprobe as [(n & ->)|(j0 & w0 & -> & Hnone & Hw0)]; run.
  { intros [= <- <- <-]. split; [exact HP|]. apply written_record, not_saved_ssh. }
  destruct (get_output env j0 w0) as [[[out|e] j1] w1] eqn:E;
    apply (get_output_written pid_only_while_running) in E as [Hpid1 Hw1].
  2: { intros [= <- <- <-]. split.
       - apply unrecorded_pid_is_fine. rewrite Hpid1. exact Hnone.
       - eapply written_trans; eassumption. }
  assert (Hnone1 : pid_recorded (pid j1) = false) by (rewrite Hpid1; exact Hnone).
  assert (Hset : forall s : Status.t,
    (match set_status s j1 w1 with
     | (Return _, jx, wx) => (Return false, jx, wx)
     | (Raise e, jx, wx) => (Raise e, jx, wx)
     end) = (r, j', w') ->
    pid_only_while_running j' /\ written pid_only_while_running w w').
  { intros s. rewrite set_status_eq. intros [= <- <- <-].
    assert (Hok : pid_only_while_running (with_status s j1))
      by (apply unrecorded_pid_is_fine; destruct j1; exact Hnone1).
    split; [exact Hok|].
    eapply written_trans; [eassumption|]. eapply written_trans; [eassumption|].
    apply written_after_set_status. exact Hok. }
  destruct (String.eqb (progress_output j1) "100%"); [|apply Hset].
  destruct (Status.eqb (status j1) Status.annotating).
  { destruct (storage_local env); apply Hset. }
  destruct (Status.eqb (status j1) Status.installing); [apply Hset|].
  intros [= <- <- <-]. split; [apply unrecorded_pid_is_fine, Hnone1|].
  eapply written_trans; eassumption.
Qed.

Lemma same_pid_and_status (j j' : Job) :
  status j' = status j -> pid j' = pid j ->
  pid_only_while_running j -> pid_only_while_running j'.
Proof. unfold pid_only_while_running. intros -> ->. auto. Qed.

Lemma same_pid_at_rest (j j' : Job) :
  pid j' = pid j ->
  pid_only_while_running j -> Status.is_running (status j) = false ->
  pid_only_while_running j'.
Proof.
  intros Hpid HP Hidle. apply unrecorded_pid_is_fine. rewrite Hpid.
  exact (idle_has_no_pid j HP Hidle).
Qed.

Lemma saved_then_set_status (s : Status.t) (j : Job) (w : World) (corpus : string) :
  corpus = corpus_id j ->
  In (Saved corpus (Job_str j))
     (history (after_set_status s j (stored j w))).
Proof.
  intros ->. unfold after_set_status. destruct (Status.eqb (status j) s).
  - rewrite history_stored. apply in_or_app. right. left. reflexivity.
  - rewrite history_stored. apply in_or_app. left.
    rewrite history_stored. apply in_or_app. right. left. reflexivity.
Qed.

(** C4, as the code has it.  On a job for which a recorded process id goes
    with a running status, the result of [process_running] and of
    [abort_sparv] is such a job again, and so is every record that the two
    save on the way: they clear the process id before they change the
    status.  On such a job that is not running, the results of
    [run_sparv], [install_korp], [sync_to_sparv] and [sync_results] are
    such jobs too.  A run or an install that starts saves the echoed
    process id in a record that still has the status from before, and the
    new status in the record after it. *)
Theorem pid_goes_with_running (env : Env) (j : Job) (w : World) :
  pid_only_while_running j ->
  (forall (r : Outcome bool) (j' : Job) (w' : World),
     process_running env j w = (r, j', w') ->
     pid_only_while_running j' /\ written pid_only_while_running w w') /\
  (forall (r : Outcome unit) (j' : Job) (w' : World),
     abort_sparv env j w = (r, j', w') ->
     pid_only_while_running j' /\ written pid_only_while_running w w') /\
  (Status.is_running (status j) = false ->
   (forall (r : Outcome unit) (j' : Job) (w' : World),
      run_sparv env j w = (r, j', w') -> pid_only_while_running j') /\
   (forall (r : Outcome unit) (j' : Job) (w' : World),
      install_korp env j w = (r, j', w') -> pid_only_while_running j') /\
   (forall (r : Outcome unit) (j' : Job) (w' : World),
      sync_to_sparv env j w = (r, j', w') -> pid_only_while_running j') /\
   (forall (r : Outcome (option Response)) (j' : Job) (w' : World),
      sync_results env j w = (r, j', w') -> pid_only_while_running j')) /\
  (forall (j' : Job) (w' : World),
     run_sparv env j w = (Return tt, j', w') ->
     exists between : Job,
       In (Saved (corpus_id j) (Job_str between)) (history w') /\
       status between = status j /\ pid between = pid j' /\
       j' = with_status Status.annotating between) /\
  (forall (j' : Job) (w' : World),
     install_korp env j w = (Return tt, j', w') ->
     exists between : Job,
       In (Saved (corpus_id j) (Job_str between)) (history w') /\
       status between = status j /\ pid between = pid j' /\
       j' = with_status Status.installing between).
Proof.
  intros HP. split; [|split; [|split; [|split]]].
  - intros r j' w'. apply process_running_keeps, HP.
  - intros r j' w'. apply abort_sparv_keeps, HP.
  - intros Hidle. repeat apply conj.
    + intros r j' w' H.
      destruct (run_sparv_outcome env j w) as (r1 & j1 & w1 & Heq & Hr).
      rewrite Heq in H. injection H as -> -> ->.
      destruct r as [[]|[]];
        try (apply running_is_fine; rewrite Hr; reflexivity);
        try (destruct Hr as (_ & Hpid & _); exact (same_pid_at_rest j j' Hpid HP Hidle));
        destruct Hr as (Hs & Hpid); exact (same_pid_and_status j j' Hs Hpid HP).
    + intros r j' w' H.
      destruct (install_korp_outcome env j w) as (r1 & j1 & w1 & Heq & Hr).
      rewrite Heq in H. injection H as -> -> ->.
      destruct r as [[]|[]];
        try (apply running_is_fine; rewrite Hr; reflexivity);
        try (destruct Hr as (_ & Hpid & _); exact (same_pid_at_rest j j' Hpid HP Hidle));
        destruct Hr as (Hs & Hpid); exact (same_pid_and_status j j' Hs Hpid HP).
    + intros r j' w' H.
      rewrite sync_to_sparv_eq in H. injection H as _ <- _.
      exact (same_pid_at_rest j (with_status Status.syncing_corpus j) eq_refl HP Hidle).
    + intros r j' w' H.
      rewrite sync_results_eq in H. injection H as _ <- _.
      exact (same_pid_at_rest j j eq_refl HP Hidle).
  - intros j' w'. rewrite run_sparv_eq. cbv zeta.
    destruct (negb _); [discriminate|].
    destruct (PyInt.parse _) as [n|]; [|discriminate].
    intros [= <- <-]. eexists. split; [apply saved_then_set_status; reflexivity|].
    repeat split; reflexivity.
  - intros j' w'. rewrite install_korp_eq. cbv zeta.
    destruct (negb _); [discriminate|].
    destruct (PyInt.parse _) as [n|]; [|discriminate].
    intros [= <- <-]. eexists. split; [apply saved_then_set_status; reflexivity|].
    repeat split; reflexivity.
Qed.

Lemma pid_goes_with_running_witness :
  let env := Sample.env_of (Sample.said 1 EmptyString EmptyString) true 0 in
  let j := Sample.job Status.annotating (Some 4242) in
  let r := process_running env j (Sample.holding j) in
  pid_only_while_running j /\
  pid_only_while_running (snd (fst r)) /\
  written pid_only_while_running (Sample.holding j) (snd r) /\
  status (snd (fst r)) = Status.error /\ pid (snd (fst r)) = None.
Proof.
  intros env j r.
  assert (HP : pid_only_while_running j) by (intros _; reflexivity).
  split; [exact HP|].
  destruct (proj1 (pid_goes_with_running env j (Sample.holding j) HP)
              (fst (fst r)) (snd (fst r)) (snd r)) as [Hend Hsaved].
  { reflexivity. }
  split; [exact Hend|]. split; [exact Hsaved|]. split; reflexivity.
Defined.

(** C4 as stated fails on the code: [run_sparv] saves the echoed process
    id while the status is still waiting, and sets the status annotating
    in a second save. *)
Lemma run_sparv_saves_pid_before_status :
  let env := Sample.env_of (Sample.said 0 ("4242" ++ Text.newline) EmptyString)
               false 5000123 in
  let j := Sample.job Status.waiting None in
  let between := with_pid (Some 4242) (with_started (Some 5000000) j) in
  pid_only_while_running j /\
  In (Saved "demo-1" (Job_str between))
     (history (snd (run_sparv env j (Sample.holding j)))) /\
  pid between = Some 4242 /\ status between = Status.waiting /\
  ~ pid_only_while_running between.
Proof.
  intros env j between. split; [intros H; discriminate H|].
  split; [vm_compute; right; right; left; reflexivity|].
  split; [reflexivity|]. split; [reflexivity|].
  intros H. specialize (H eq_refl). discriminate H.
Qed.


(** ** A whole run *)

(** Corpus [demo-1], waiting: the run starts with the echoed process id
    4242 (annotating), the next poll finds the process gone and the output
    at [PROGRESS 100%] (done_annotating, the storage not being local). *)
Example whole_run_of_demo_1 :
  let env := Sample.env_of (Sample.obliging "12:00:01 PROGRESS 100%") false 5000123 in
  let r2 := run_sparv env (Sample.job Status.waiting None) Sample.fresh in
  let r3 := process_running env (snd (fst r2)) (snd r2) in
  (fst (fst r2) = Return tt /\ status (snd (fst r2)) = Status.annotating /\
   pid (snd (fst r2)) = Some 4242) /\
  (fst (fst r3) = Return false /\ status (snd (fst r3)) = Status.done_annotating /\
   pid (snd (fst r3)) = None /\
   persisted_status (snd r3) "demo-1" = Some Status.done_annotating /\
   progress (snd (fst r3)) = Some "100%").
Proof. repeat split; vm_compute; reflexivity. Qed.

(** * Further properties of the job module *)

(** ** The statuses *)

(** X2.  The classes of statuses: no status is both active and inactive;
    the running and the waiting statuses are active and exclude each
    other; a running status has process output and a waiting one has
    not; a status that is done processing has process output and is not
    active; and the statuses that are neither active nor inactive are
    none, done_annotating and syncing_results. *)
Theorem status_classes (s : Status.t) :
  Status.is_active s && Status.is_inactive s = false /\
  Status.is_running s && Status.is_waiting s = false /\
  (Status.is_running s = true ->
   Status.is_active s = true /\ Status.has_process_output s = true) /\
  (Status.is_waiting s = true ->
   Status.is_active s = true /\ Status.has_process_output s = false) /\
  (Status.is_done_processing s = true ->
   Status.has_process_output s = true /\ Status.is_active s = false) /\
  (Status.is_active s = false /\ Status.is_inactive s = false <->
   s = Status.none \/ s = Status.done_annotating \/ s = Status.syncing_results).
Proof.
  destruct s; vm_compute; intuition congruence.
Qed.

Lemma status_classes_witness :
  Status.is_running Status.installing = true /\
  Status.is_active Status.installing = true /\
  Status.has_process_output Status.installing = true.
Proof.
  assert (H : Status.is_running Status.installing = true) by reflexivity.
  split; [exact H|].
  exact (proj1 (proj2 (proj2 (status_classes Status.installing))) H).
Defined.

(** ** The progress shown *)

(** X3.  [progress] shows [100%] only for a job that is done processing;
    with process output and a parsed progress of [100%] before that, it
    shows [99%]; it shows nothing exactly for the statuses none and
    aborted, and [0%] for an active job without process output. *)
Theorem progress_full_only_when_done (j : Job) :
  (progress j = Some "100%" ->
   Status.is_done_processing (status j) = true /\ progress_output j = "100%") /\
  (Status.has_process_output (status j) = true ->
   progress_output j = "100%" ->
   Status.is_done_processing (status j) = false ->
   progress j = Some "99%") /\
  (progress j = None <-> status j = Status.none \/ status j = Status.aborted) /\
  (Status.has_process_output (status j) = false ->
   Status.is_active (status j) = true -> progress j = Some "0%").
Proof.
  unfold progress. repeat apply conj.
  - destruct (Status.has_process_output (status j)).
    + destruct (String.eqb_spec (progress_output j) "100%") as [E|E]; cbn [andb].
      * destruct (Status.is_done_processing (status j)); cbn [negb]; [auto|].
        intros H. discriminate H.
      * intros [= H]. contradiction.
    + destruct (Status.is_active (status j)); intros H; discriminate H.
  - intros -> E ->. rewrite E. reflexivity.
  - destruct (Status.has_process_output (status j)) eqn:Ho.
    { destruct (_ && _); intros H; discriminate H. }
    destruct (Status.is_active (status j)) eqn:Ha; [intros H; discriminate H|].
    intros _. destruct (status j); vm_compute in Ho, Ha; try discriminate; auto.
  - intros [H|H]; rewrite H; reflexivity.
  - intros -> ->. reflexivity.
Qed.

Lemma progress_full_only_when_done_witness :
  let j := with_progress_output "100%" (Sample.job Status.annotating (Some 4242)) in
  Status.has_process_output (status j) = true /\
  progress_output j = "100%" /\
  Status.is_done_processing (status j) = false /\
  progress j = Some "99%".
Proof.
  intros j.
  assert (H1 : Status.has_process_output (status j) = true) by reflexivity.
  assert (H2 : progress_output j = "100%") by reflexivity.
  assert (H3 : Status.is_done_processing (status j) = false) by reflexivity.
  exact (conj H1 (conj H2 (conj H3
           (proj1 (proj2 (progress_full_only_when_done j)) H1 H2 H3)))).
Defined.

(** ** Elapsed time of a job that is not running *)

(** X4.  For a job that has no start time, or is waiting, or is neither
    running nor has a completion time from the output, [seconds_taken]
    is 0, reads no clock, and overwrites the measured duration with 0
    (saving the job when that changes it). *)
Theorem seconds_taken_at_rest (env : Env) (j : Job) (w : World) :
  started j = None \/ Status.is_waiting (status j) = true \/
  (Status.is_running (status j) = false /\ sparv_done j = None) ->
  seconds_taken env j w
  = (Return 0, with_latest_seconds_taken 0 j,
     if latest_seconds_taken j =? 0 then w
     else stored (with_latest_seconds_taken 0 j) w).
Proof.
  intros H. unfold seconds_taken. run.
  destruct (started j) as [t0|].
  - destruct H as [H|[H|[Hrun Hdone]]]; [discriminate H| |].
    + rewrite H. run. rewrite set_latest_seconds_taken_eq. reflexivity.
    + destruct (Status.is_waiting (status j));
        [run; rewrite set_latest_seconds_taken_eq; reflexivity|].
      rewrite Hrun, Hdone. run. rewrite set_latest_seconds_taken_eq. reflexivity.
  - run. rewrite set_latest_seconds_taken_eq. reflexivity.
Qed.

Lemma seconds_taken_at_rest_witness :
  let env := Sample.env_of (Sample.said 0 EmptyString EmptyString) false 9000000 in
  let j := with_latest_seconds_taken 7000000 (Sample.job Status.waiting None) in
  (started j = None \/ Status.is_waiting (status j) = true \/
   (Status.is_running (status j) = false /\ sparv_done j = None)) /\
  seconds_taken env j Sample.fresh
  = (Return 0, with_latest_seconds_taken 0 j,
     stored (with_latest_seconds_taken 0 j) Sample.fresh).
Proof.
  intros env j.
  assert (H : started j = None \/ Status.is_waiting (status j) = true \/
              (Status.is_running (status j) = false /\ sparv_done j = None))
    by (right; left; reflexivity).
  split; [exact H|].
  exact (seconds_taken_at_rest env j Sample.fresh H).
Defined.



(** ** The output fetched twice *)

Lemma with_sparv_done_twice (x y : option Z) (j : Job) :
  with_sparv_done y (with_sparv_done x j) = with_sparv_done y j.
Proof. destruct j; reflexivity. Qed.

Ltac use_equations :=
  repeat (match goal with
          | H : _ = _ |- _ => rewrite H
          end; run).

(** A line either leaves the job alone, with an outcome that depends on
    the job through its start time only, or sets the completion time. *)
Lemma parse_line_shape (env : Env) (line : string) (st : Parsed) (j : Job) :
  (exists o : Outcome Parsed,
     forall (jx : Job) (wx : World),
       started jx = started j ->
       parse_line env line st jx wx = (o, jx, wx)) \/
  (exists (v : Z) (st' : Parsed),
     forall (jx : Job) (wx : World),
       started jx = started j ->
       parse_line env line st jx wx
       = (Return st', with_sparv_done (Some v) jx, wx)).
Proof.
  destruct (Regex.tagged line) as [[tag group2]|] eqn:Et.
  { left.
    destruct (String.eqb tag "PROGRESS") eqn:E1;
      [eexists; intros jx wx _; unfold parse_line; run; use_equations; reflexivity|].
    destruct (String.eqb tag "WARNING") eqn:E2;
      [eexists; intros jx wx _; unfold parse_line; run; use_equations; reflexivity|].
    destruct (String.eqb tag "ERROR") eqn:E3;
      eexists; intros jx wx _; unfold parse_line; run; use_equations; reflexivity. }
  destruct (Regex.continuation line) eqn:Ec;
    [left; eexists; intros jx wx _; unfold parse_line; run; use_equations;
     reflexivity|].
  destruct (Regex.real_time line) eqn:Er.
  { destruct (seconds_of_text env (Text.strip (Text.drop 5 line))) as [d|] eqn:Es.
    - destruct (started j) as [t|] eqn:Hj.
      + right. exists (t + d), st. intros jx wx Hs.
        unfold parse_line. run. use_equations. reflexivity.
      + left. exists (Raise TypeError). intros jx wx Hs.
        unfold parse_line. run. use_equations. reflexivity.
    - left. exists (Raise ValueError). intros jx wx _.
      unfold parse_line. run. use_equations. reflexivity. }
  destruct (Regex.user_sys line) eqn:Eu;
    [left; eexists; intros jx wx _; unfold parse_line; run; use_equations;
     reflexivity|].
  destruct (truthy (Text.strip line)) eqn:Em;
    left; eexists; intros jx wx _; unfold parse_line; run; use_equations;
    reflexivity.
Qed.

Lemma started_with_sparv_done (x : option Z) (j : Job) :
  started (with_sparv_done x j) = started j.
Proof. destruct j; reflexivity. Qed.

(** The parse of the same lines on a job with the same start time gives
    the same outcome; the completion time it ends with is the one it
    starts with when the lines set none, and the one that the first
    parse ends with otherwise. *)
Lemma parse_lines_again (env : Env) (lines : list string) (st : Parsed)
    (j j1 : Job) (w w1 : World) (r : Outcome Parsed) :
  parse_lines env lines st j w = (r, j1, w1) ->
  forall (jx : Job) (w' : World),
  started jx = started j ->
  exists y : option Z,
    parse_lines env lines st jx w' = (r, with_sparv_done y jx, w') /\
    ((y = sparv_done jx /\ sparv_done j1 = sparv_done j) \/ y = sparv_done j1).
Proof.
  revert st j w. induction lines as [|line rest IH]; intros st j w.
  - cbn [parse_lines]. run. intros [= <- <- <-] jx w' _.
    exists (sparv_done jx). split; [destruct jx; reflexivity|auto].
  - cbn [parse_lines]. run. intros Hrun jx w' Hs.
    destruct (parse_line_shape env line st j) as [(o & Hline)|(v & st' & Hline)].
    + rewrite (Hline j w eq_refl) in Hrun. rewrite (Hline jx w' Hs).
      destruct o as [st'|e].
      * exact (IH st' j w Hrun jx w' Hs).
      * injection Hrun as <- <- <-. exists (sparv_done jx).
        split; [destruct jx; reflexivity|auto].
    + rewrite (Hline j w eq_refl) in Hrun. rewrite (Hline jx w' Hs).
      destruct (IH st' _ w Hrun (with_sparv_done (Some v) jx) w') as (y & Hy & Hcase).
      { rewrite !started_with_sparv_done. exact Hs. }
      exists y. rewrite Hy, with_sparv_done_twice. split; [reflexivity|].
      right. destruct Hcase as [[-> Hsame]| ->]; [|reflexivity].
      rewrite Hsame. destruct jx, j; reflexivity.
Qed.

(** X6.  When the fetched output is empty or white space only,
    [get_output] on a job with process output returns three empty texts
    and leaves the job as it is: the progress parsed before stays. *)
Theorem get_output_of_empty_output (env : Env) (j : Job) (w : World) :
  Status.has_process_output (status j) = true ->
  Text.strip (stdout (ssh_run env (history w) (CatNohup (corpus_id j)))) = EmptyString ->
  get_output env j w
  = (Return (EmptyString, EmptyString, EmptyString), j,
     record (Ssh (CatNohup (corpus_id j))) w).
Proof.
  intros Ho Hempty. unfold get_output. run. rewrite Ho. cbn [negb].
  set (p := ssh_run env (history w) (CatNohup (corpus_id j))) in *.
  assert (Hout : (if truthy (stdout p) then Text.strip (stdout p) else EmptyString)
                 = EmptyString) by (destruct (truthy (stdout p)); auto).
  rewrite Hout. reflexivity.
Qed.

Lemma get_output_of_empty_output_witness :
  let env := Sample.env_of (Sample.said 1 "   " "cat: min-sb.out: No such file") false 0 in
  let j := with_progress_output "57%" (Sample.job Status.annotating None) in
  Status.has_process_output (status j) = true /\
  Text.strip (stdout (ssh_run env (history Sample.fresh) (CatNohup (corpus_id j))))
  = EmptyString /\
  get_output env j Sample.fresh
  = (Return (EmptyString, EmptyString, EmptyString), j,
     record (Ssh (CatNohup (corpus_id j))) Sample.fresh).
Proof.
  intros env j.
  assert (H1 : Status.has_process_output (status j) = true) by reflexivity.
  assert (H2 : Text.strip (stdout (ssh_run env (history Sample.fresh)
                 (CatNohup (corpus_id j)))) = EmptyString) by reflexivity.
  exact (conj H1 (conj H2 (get_output_of_empty_output env j Sample.fresh H1 H2))).
Defined.

(** X7.  [get_output] is idempotent on the same output: when it has
    returned, a second call on the job it left, in any world in which the
    remote host gives the same output, returns the same warnings, errors
    and misc and leaves the job as the first call left it. *)
Theorem get_output_twice (env : Env) (j j1 : Job) (w w1 w2 : World)
    (out : string * string * string) :
  get_output env j w = (Return out, j1, w1) ->
  stdout (ssh_run env (history w2) (CatNohup (corpus_id j)))
  = stdout (ssh_run env (history w) (CatNohup (corpus_id j))) ->
  exists w3 : World,
    get_output env j1 w2 = (Return out, j1, w3) /\
    (w3 = w2 \/ w3 = record (Ssh (CatNohup (corpus_id j))) w2).
Proof.
  intros Hrun Hsame.
  destruct (get_output_frame env j j1 w w1 _ Hrun) as [Hj1 _].
  assert (Hstatus : status j1 = status j) by (rewrite Hj1; destruct j; reflexivity).
  assert (Hcorpus : corpus_id j1 = corpus_id j) by (rewrite Hj1; destruct j; reflexivity).
  assert (Hstarted : started j1 = started j) by (rewrite Hj1; destruct j; reflexivity).
  revert Hrun. unfold get_output. run. rewrite Hstatus, Hcorpus.
  destruct (negb (Status.has_process_output (status j))).
  { intros [= <- <- <-]. eauto. }
  run. rewrite Hsame.
  set (p := ssh_run env (history w) (CatNohup (corpus_id j))).
  destruct (truthy (if truthy (stdout p) then Text.strip (stdout p) else EmptyString)).
  2: { intros [= <- <- <-]. eauto. }
  run.
  match goal with
  | |- context [parse_lines env ?ls parsed_start j ?w0] =>
      destruct (parse_lines env ls parsed_start j w0) as [[[st|e] j'] w'] eqn:E
  end; [|discriminate].
  set (prog := if Text.startswith "Nothing to be done." (Text.join_lines (p_misc st))
               then "100%" else p_progress st).
  intros Hrun. injection Hrun as Hout Hjob Hw.
  destruct (parse_lines_again env _ _ _ _ _ _ _ E j1
              (record (Ssh (CatNohup (corpus_id j))) w2) Hstarted)
    as (y & Hy & Hcase).
  rewrite Hy.
  assert (Hy1 : y = sparv_done j1).
  { destruct Hcase as [[-> _]| ->]; [reflexivity|].
    rewrite <- Hjob. destruct j'; reflexivity. }
  eexists. split; [|right; reflexivity].
  rewrite Hout. f_equal. f_equal.
  rewrite Hy1. rewrite <- Hjob. destruct j'; reflexivity.
Qed.

Lemma get_output_twice_witness :
  let out := "12:00:01 WARNING slow" ++ Text.newline ++ "12:00:02 PROGRESS 57%"
             ++ Text.newline ++ "real 2.50" in
  let env := Sample.env_of (Sample.said 0 out EmptyString) false 0 in
  let j := Sample.job Status.annotating None in
  let j1 := with_progress_output "57%" (with_sparv_done (Some 3500000) j) in
  let w1 := record (Ssh (CatNohup "demo-1")) Sample.fresh in
  get_output env j Sample.fresh = (Return ("WARNING slow", EmptyString, EmptyString), j1, w1) /\
  exists w3 : World,
    get_output env j1 w1 = (Return ("WARNING slow", EmptyString, EmptyString), j1, w3).
Proof.
  intros out env j j1 w1.
  assert (H : get_output env j Sample.fresh
              = (Return ("WARNING slow", EmptyString, EmptyString), j1, w1))
    by reflexivity.
  split; [exact H|].
  destruct (get_output_twice env j j1 Sample.fresh w1 w1 _ H eq_refl) as (w3 & H3 & _).
  exists w3. exact H3.
Defined.

(** ** The synchronisations and the local path functions *)

Lemma truthy_nonempty (t : string) : t <> EmptyString -> truthy t = true.
Proof. destruct t; [congruence|reflexivity]. Qed.

Lemma after_set_status_changes (s : Status.t) (j : Job) (w : World) :
  status j <> s -> after_set_status s j w = stored (with_status s j) w.
Proof.
  intros Hne. unfold after_set_status. rewrite status_eqb_neq by exact Hne.
  reflexivity.
Qed.

(** X8.  As [utils] stands, neither synchronisation gets to the remote
    host.  [sync_to_sparv] saves the status syncing_corpus and raises
    [TypeError] at [utils.get_corpora_dir(mkdir=True)], a call that gives
    no user; [sync_results] raises [TypeError] at
    [utils.get_corpus_dir(self.corpus_id, mkdir=True)], a call that gives
    no corpus id, and leaves the job and the world as they are.  Whatever
    the remote host and the storage would answer, no command, download,
    copy or upload is made; after [sync_to_sparv] on a job that was not
    syncing, the one new event is the save and the persisted status is
    syncing_corpus. *)
Theorem synchronisations_stop_at_local_paths (env : Env) (j : Job) (w : World) :
  let j' := with_status Status.syncing_corpus j in
  let w' := after_set_status Status.syncing_corpus j w in
  sync_to_sparv env j w = (Raise TypeError, j', w') /\
  (status j <> Status.syncing_corpus ->
   history w' = (history w ++ [Saved (corpus_id j) (Job_str j')])%list /\
   persisted_status w' (corpus_id j) = Some Status.syncing_corpus) /\
  (status j = Status.syncing_corpus -> j' = j /\ w' = w) /\
  sync_results env j w = (Raise TypeError, j, w).
Proof.
  intros j' w'. repeat apply conj.
  - unfold sync_to_sparv. run. rewrite set_status_eq. reflexivity.
  - intros Hne. unfold w'. rewrite after_set_status_changes by exact Hne.
    split; [reflexivity|]. apply persisted_status_stored_at. reflexivity.
  - intros Heq. unfold j', w', after_set_status. rewrite Heq.
    split; [|reflexivity]. destruct j. cbn in Heq. subst. reflexivity.
  - reflexivity.
Qed.

Lemma synchronisations_stop_at_local_paths_witness :
  let env := Sample.env_of (Sample.obliging "12:00:01 PROGRESS 100%") false 0 in
  let j := Sample.job Status.none None in
  let r := sync_to_sparv env j Sample.fresh in
  status j <> Status.syncing_corpus /\
  fst (fst r) = Raise TypeError /\
  history (snd r) = [Saved "demo-1" (Job_str (with_status Status.syncing_corpus j))] /\
  persisted_status (snd r) "demo-1" = Some Status.syncing_corpus.
Proof.
  intros env j r.
  assert (Hne : status j <> Status.syncing_corpus) by discriminate.
  pose proof (synchronisations_stop_at_local_paths env j Sample.fresh)
    as (Heq & Hsaved & _ & _).
  destruct (Hsaved Hne) as (Hhist & Hper).
  unfold r. rewrite Heq. exact (conj Hne (conj eq_refl (conj Hhist Hper))).
Defined.

(** ** Installing *)



Lemma install_korp_extends (env : Env) (j j' : Job) (w w' : World) (r : Outcome unit) :
  install_korp env j w = (r, j', w') ->
  default_installs w' = (default_installs w ++ [install_variant j])%list /\
  In (Ssh (InstallScript (corpus_id j) (default_installs w ++ [install_variant j])))
     (history w') /\
  corpus_id j' = corpus_id j /\ install_scrambled j' = install_scrambled j.
Proof.
  rewrite install_korp_eq. cbv zeta. fold (install_variant j).
  assert (Hin : forall wx : World,
    In (Ssh (InstallScript (corpus_id j) (default_installs w ++ [install_variant j])))
       (history (record (Ssh (InstallScript (corpus_id j)
                               (default_installs w ++ [install_variant j]))) wx)))
    by (intros wx; cbn [history record]; apply in_or_app; right; left; reflexivity).
  assert (Hstored : forall (x : Job) (wx : World) (e : Event),
            In e (history wx) -> In e (history (stored x wx)))
    by (intros x wx e H; rewrite history_stored; apply in_or_app; left; exact H).
  assert (Hset : forall (s : Status.t) (x : Job) (wx : World) (e : Event),
            In e (history wx) -> In e (history (after_set_status s x wx))).
  { intros s x wx e H. unfold after_set_status.
    destruct (Status.eqb (status x) s); [exact H|apply Hstored, H]. }
  assert (Hlist : forall (s : Status.t) (x y : Job) (wx : World),
            default_installs (after_set_status s x (stored y wx)) = default_installs wx).
  { intros s x y wx. unfold after_set_status.
    destruct (Status.eqb (status x) s); reflexivity. }
  destruct (negb _).
  - intros [= <- <- <-]. rewrite Hlist. split; [reflexivity|].
    split; [apply Hset, Hstored, Hin|]. split; destruct j; reflexivity.
  - destruct (PyInt.parse _) as [n|]; intros [= <- <- <-].
    + rewrite Hlist. split; [reflexivity|].
      split; [apply Hset, Hstored, Hin|]. split; destruct j; reflexivity.
    + split; [reflexivity|]. split; [apply Hin|]. split; destruct j; reflexivity.
Qed.

(** X11.  [install_korp] extends the list of installs of the configuration
    in place, whatever the outcome of the remote command: after a call the
    list holds one more target, and the command of a second call on the
    same job asks for the targets of the configuration followed by the
    target of the job twice. *)
Theorem install_korp_grows_configured_list (env : Env) (j j1 j2 : Job)
    (w w1 w2 : World) (r1 r2 : Outcome unit) :
  install_korp env j w = (r1, j1, w1) ->
  install_korp env j1 w1 = (r2, j2, w2) ->
  default_installs w1 = (default_installs w ++ [install_variant j])%list /\
  default_installs w2
  = (default_installs w ++ [install_variant j; install_variant j])%list /\
  In (Ssh (InstallScript (corpus_id j)
             (default_installs w ++ [install_variant j; install_variant j])))
     (history w2).
Proof.
  intros H1 H2.
  destruct (install_korp_extends env j j1 w w1 r1 H1) as (Hl1 & _ & Hc1 & Hs1).
  destruct (install_korp_extends env j1 j2 w1 w2 r2 H2) as (Hl2 & Hin2 & _ & _).
  assert (Hv : install_variant j1 = install_variant j)
    by (unfold install_variant; rewrite Hs1; reflexivity).
  rewrite Hv, Hl1, <- app_assoc in Hl2. rewrite Hv, Hl1, Hc1, <- app_assoc in Hin2.
  cbn [app] in Hl2, Hin2.
  auto.
Qed.

Lemma install_korp_grows_configured_list_witness :
  let j := Sample.job Status.waiting_install None in
  let env := Sample.env_of (Sample.said 0 ("4711" ++ Text.newline) EmptyString) false 0 in
  let r1 := install_korp env j (Sample.holding j) in
  let r2 := install_korp env (snd (fst r1)) (snd r1) in
  default_installs (snd r1) = ["cwb:install_corpus"] /\
  default_installs (snd r2) = ["cwb:install_corpus"; "cwb:install_corpus"] /\
  In (Ssh (InstallScript "demo-1" ["cwb:install_corpus"; "cwb:install_corpus"]))
     (history (snd r2)).
Proof.
  intros j env r1 r2.
  assert (H1 : install_korp env j (Sample.holding j)
               = (fst (fst r1), snd (fst r1), snd r1))
    by (vm_compute; reflexivity).
  assert (H2 : install_korp env (snd (fst r1)) (snd r1)
               = (fst (fst r2), snd (fst r2), snd r2))
    by (vm_compute; reflexivity).
  pose proof (install_korp_grows_configured_list env j _ _ _ _ _ _ _ H1 H2)
    as (Ha & Hb & Hc).
  split; [exact Ha|]. split; [exact Hb|exact Hc].
Defined.

(** ** Removing from the remote host, cleaning *)

(** X12.  [remove_from_sparv] first aborts the job.  On a job that is
    neither waiting nor running the [ProcessNotRunning] of the abort is
    dropped and the remote directory is removed; what the removal writes
    to stderr is not raised.  When the abort returns, the directory is
    removed after it.  When the abort raises on a running job, the raise
    is passed on and no removal is sent. *)
Theorem remove_from_sparv_cases (env : Env) (j : Job) (w : World) :
  (Status.is_waiting (status j) = false ->
   Status.is_running (status j) = false ->
   remove_from_sparv env j w
   = (Return tt, j, record (Ssh (RemoveCorpusDir (corpus_id j))) w)) /\
  (forall (j' : Job) (w' : World),
     abort_sparv env j w = (Return tt, j', w') ->
     remove_from_sparv env j w
     = (Return tt, j', record (Ssh (RemoveCorpusDir (corpus_id j))) w')) /\
  (forall (e : Exn) (j' : Job) (w' : World),
     Status.is_running (status j) = true ->
     abort_sparv env j w = (Raise e, j', w') ->
     remove_from_sparv env j w = (Raise e, j, w') /\
     (w' = w \/ exists n : Z, w' = record (Ssh (KillTerm n)) w)).
Proof.
  split; [|split].
  - intros Hwait Hrun. unfold remove_from_sparv. run.
    rewrite abort_sparv_eq, Hwait, Hrun. reflexivity.
  - intros j' w' Habort. unfold remove_from_sparv. run. rewrite Habort.
    destruct (abort_sparv_returns env j j' w w' Habort) as [-> _]. reflexivity.
  - intros e j' w' Hrun Habort.
    destruct (abort_sparv_raises env j j' w w' e Habort) as (-> & _ & _ & Hnot).
    split.
    + unfold remove_from_sparv. run. rewrite Habort, (Hnot Hrun). reflexivity.
    + revert Habort. rewrite abort_sparv_eq, (running_not_waiting _ Hrun), Hrun.
      cbn [negb]. destruct (pid j) as [n|]; [|intros [= _ <-]; auto].
      destruct (pid_recorded (Some n)); [|intros [= _ <-]; auto].
      cbv zeta. destruct (_ || _); [discriminate|].
      intros [= _ <-]. right. exists n. reflexivity.
Qed.

Lemma remove_from_sparv_cases_witness :
  let j := Sample.job Status.done_syncing None in
  let env := Sample.env_of (Sample.said 1 EmptyString "rm: cannot remove") false 0 in
  Status.is_waiting (status j) = false /\
  Status.is_running (status j) = false /\
  remove_from_sparv env j (Sample.holding j)
  = (Return tt, j, record (Ssh (RemoveCorpusDir "demo-1")) (Sample.holding j)).
Proof.
  intros j env.
  assert (H1 : Status.is_waiting (status j) = false) by reflexivity.
  assert (H2 : Status.is_running (status j) = false) by reflexivity.
  exact (conj H1 (conj H2
           (proj1 (remove_from_sparv_cases env j (Sample.holding j)) H1 H2))).
Defined.

Lemma has_newline_app (a b : string) :
  has_newline (a ++ b) = has_newline a || has_newline b.
Proof.
  induction a as [|c a IH]; [reflexivity|].
  change (String c a ++ b) with (String c (a ++ b)).
  cbn [has_newline]. rewrite IH, orb_assoc. reflexivity.
Qed.

Lemma split_lines_no_newline (s : string) :
  Forall (fun l => has_newline l = false) (Text.split_lines s).
Proof.
  induction s as [|c s IH]; cbn [Text.split_lines].
  - constructor; [reflexivity|constructor].
  - destruct (Text.is_newline c) eqn:E.
    + constructor; [reflexivity|exact IH].
    + destruct (Text.split_lines s) as [|l ls]; [repeat constructor; cbn; rewrite E; reflexivity|].
      inversion IH as [|? ? Hl Hls]; subst. constructor; [|exact Hls].
      cbn [has_newline]. rewrite E, Hl. reflexivity.
Qed.

Lemma join_comma_no_newline (l : list string) :
  Forall (fun x => has_newline x = false) l -> has_newline (join_comma l) = false.
Proof.
  induction l as [|x l IH]; intros H; [reflexivity|].
  inversion H as [|? ? Hx Hl]; subst. cbn [join_comma].
  destruct l as [|y l']; [exact Hx|].
  rewrite !has_newline_app, Hx, (IH Hl). reflexivity.
Qed.

Lemma nonempty_lines_no_newline (out : string) :
  has_newline (nonempty_lines out) = false.
Proof.
  unfold nonempty_lines. apply join_comma_no_newline.
  apply List.Forall_forall. intros x Hin. apply filter_In in Hin as [Hin _].
  pose proof (split_lines_no_newline out) as H.
  rewrite List.Forall_forall in H. exact (H x Hin).
Qed.

(** X13.  [clean] and [clean_export] raise exactly when the remote command
    has written to stderr, whatever its exit code, with that text as the
    message; otherwise they return the lines of its output that are not
    empty, joined by a comma and a blank, a text that holds no newline.
    Neither touches the job or what is stored. *)
Theorem clean_cases (env : Env) (j : Job) (w : World) :
  let p := ssh_run env (history w) (CleanAll (corpus_id j)) in
  let q := ssh_run env (history w) (CleanExport (corpus_id j)) in
  (stderr p <> EmptyString ->
   clean env j w
   = (Raise (Exception (stderr p)), j, record (Ssh (CleanAll (corpus_id j))) w)) /\
  (stderr p = EmptyString ->
   clean env j w
   = (Return (nonempty_lines (stdout p)), j,
      record (Ssh (CleanAll (corpus_id j))) w)) /\
  (stderr q <> EmptyString ->
   clean_export env j w
   = (Raise (Exception (stderr q)), j, record (Ssh (CleanExport (corpus_id j))) w)) /\
  (stderr q = EmptyString ->
   clean_export env j w
   = (Return (nonempty_lines (stdout q)), j,
      record (Ssh (CleanExport (corpus_id j))) w)) /\
  has_newline (nonempty_lines (stdout p)) = false /\
  has_newline (nonempty_lines (stdout q)) = false.
Proof.
  intros p q. repeat apply conj.
  - intros H. unfold clean. run. fold p. rewrite (truthy_nonempty _ H). reflexivity.
  - intros H. unfold clean. run. fold p. rewrite H. reflexivity.
  - intros H. unfold clean_export. run. fold q. rewrite (truthy_nonempty _ H).
    reflexivity.
  - intros H. unfold clean_export. run. fold q. rewrite H. reflexivity.
  - apply nonempty_lines_no_newline.
  - apply nonempty_lines_no_newline.
Qed.

Lemma clean_cases_witness :
  let out := "Removed: sparv-workdir" ++ Text.newline ++ Text.newline
             ++ "Removed: export" ++ Text.newline in
  let env := Sample.env_of (Sample.said 2 out EmptyString) false 0 in
  let j := Sample.job Status.done_syncing None in
  stderr (ssh_run env (history Sample.fresh) (CleanAll (corpus_id j))) = EmptyString /\
  clean env j Sample.fresh
  = (Return "Removed: sparv-workdir, Removed: export", j,
     record (Ssh (CleanAll "demo-1")) Sample.fresh).
Proof.
  intros out env j.
  assert (H : stderr (ssh_run env (history Sample.fresh) (CleanAll (corpus_id j)))
              = EmptyString) by reflexivity.
  split; [exact H|].
  exact (proj1 (proj2 (clean_cases env j Sample.fresh)) H).
Defined.

(** ** Loading records *)

(** A member under another key leaves the value of a key as it is. *)
Lemma lookup_members_other (k : string) (members d : list (string * json)) :
  ~ In k (map fst members) ->
  lookup_field k (fold_left (fun d kv => set_field (fst kv) (snd kv) d) members d)
  = lookup_field k d.
Proof.
  revert d. induction members as [|[k0 v] rest IH]; intros d Hnot; [reflexivity|].
  cbn [fold_left fst snd]. rewrite IH.
  - apply lookup_set_field_ne. intros ->. apply Hnot. left. reflexivity.
  - intros Hin. apply Hnot. right. exact Hin.
Qed.

(** The value of a key after the members depends on its value before
    them only. *)
Lemma lookup_members_agree (k : string) (members d d' : list (string * json)) :
  lookup_field k d = lookup_field k d' ->
  lookup_field k (fold_left (fun d kv => set_field (fst kv) (snd kv) d) members d)
  = lookup_field k (fold_left (fun d kv => set_field (fst kv) (snd kv) d) members d').
Proof.
  revert d d'. induction members as [|[k0 v] rest IH]; intros d d' H; [exact H|].
  cbn [fold_left fst snd]. apply IH.
  destruct (string_dec k0 k) as [->|Hne].
  - rewrite !lookup_set_field_eq. reflexivity.
  - rewrite !lookup_set_field_ne by exact Hne. exact H.
Qed.

(** A key of a member is a key of the dict. *)
Lemma lookup_members_key (k : string) (members d : list (string * json)) :
  In k (map fst members) ->
  lookup_field k (fold_left (fun d kv => set_field (fst kv) (snd kv) d) members d)
  <> None.
Proof.
  revert d. induction members as [|[k0 v] rest IH]; intros d Hin; [destruct Hin|].
  cbn [fold_left fst snd].
  destruct (in_dec string_dec k (map fst rest)) as [Hrest|Hrest]; [apply IH, Hrest|].
  destruct Hin as [Heq|Hin]; [|contradiction].
  cbn [fst] in Heq. subst k0.
  rewrite lookup_members_other by exact Hrest.
  rewrite lookup_set_field_eq. discriminate.
Qed.

(** Members under other keys, before and after, leave the value of a key
    as the members in between give it. *)
Lemma lookup_loads_frame (k : string) (before members after : list (string * json)) :
  ~ In k (map fst before) -> ~ In k (map fst after) ->
  lookup_field k (loads (before ++ members ++ after))
  = lookup_field k (loads members).
Proof.
  intros Hb Ha. unfold loads. rewrite !fold_left_app.
  rewrite lookup_members_other by exact Ha.
  apply lookup_members_agree. apply lookup_members_other, Hb.
Qed.

Lemma lookup_override_agree {A} (k k' : string) (f : A -> json) (v : option A)
    (d d' : list (string * json)) :
  lookup_field k d = lookup_field k d' ->
  lookup_field k (override k' f v d) = lookup_field k (override k' f v d').
Proof.
  intros H. destruct (string_dec k' k) as [->|Hne].
  - rewrite !lookup_override_eq, H. reflexivity.
  - rewrite !lookup_override_ne by exact Hne. exact H.
Qed.

Ltac is_parameter :=
  unfold parameters; cbn [In]; repeat first [left; reflexivity | right].

(** The call of [Job] looks at the keys that name a parameter only. *)
Lemma Job_of_info_agree (st : Status.t) (d d' : list (string * json)) :
  (forall k, In k parameters -> lookup_field k d = lookup_field k d') ->
  Job_of_info st d = Job_of_info st d'.
Proof.
  intros H. unfold Job_of_info, keyword.
  rewrite (H "self") by is_parameter.
  rewrite (H "corpus_id") by is_parameter.
  rewrite (H "user_id") by is_parameter.
  rewrite (H "contact") by is_parameter.
  rewrite (H "pid") by is_parameter.
  rewrite (H "started") by is_parameter.
  rewrite (H "done") by is_parameter.
  rewrite (H "sparv_exports") by is_parameter.
  rewrite (H "files") by is_parameter.
  rewrite (H "available_files") by is_parameter.
  rewrite (H "install_scrambled") by is_parameter.
  rewrite (H "installed_korp") by is_parameter.
  rewrite (H "latest_seconds_taken") by is_parameter.
  reflexivity.
Qed.

(** [load_from_str] looks at the last member of each key that names a
    parameter only. *)
Lemma load_from_str_agree (members members' : list (string * json)) (o : Overrides) :
  (forall k, In k parameters ->
             lookup_field k (loads members) = lookup_field k (loads members')) ->
  load_from_str (JObj members) o = load_from_str (JObj members') o.
Proof.
  intros H. unfold load_from_str. cbv zeta.
  rewrite (H "status") by is_parameter.
  destruct (lookup_field "status" (loads members')) as [[]|]; try reflexivity.
  destruct (Status.of_name s) as [st|]; [|reflexivity].
  rewrite (Job_of_info_agree st _
             (override "install_scrambled" JBool (o_install_scrambled o)
                (override "available_files" json_strings (o_available_files o)
                   (override "files" json_strings (o_files o)
                      (override "sparv_exports" json_strings (o_sparv_exports o)
                         (override "contact" JStr (o_contact o)
                            (override "user_id" JStr (o_user_id o)
                               (loads members')))))))); [reflexivity|].
  intros k Hk. repeat apply lookup_override_agree. apply H, Hk.
Qed.

(** X14.  [load_from_str] drops the members that name no parameter of
    [Job.__init__]: a record that [__str__] wrote, with further members
    before and after it under keys that are no parameter, is loaded as
    the record without them.  The key [self] is a parameter: a record
    with a member [self], whose status is the name of a member of
    [Status], makes the call of [Job] raise [TypeError]. *)
Theorem load_from_str_drops_obsolete_fields
    (j : Job) (o : Overrides) (before after : list (string * json)) :
  ((forall kv, In kv (before ++ after)%list -> ~ In (fst kv) parameters) ->
   load_from_str (JObj (before ++ Job_info j ++ after)) o = Return (reloaded o j)) /\
  (forall (members : list (string * json)) (n : string) (st : Status.t),
     In "self" (map fst members) ->
     lookup_field "status" (loads members) = Some (JStr n) ->
     Status.of_name n = Some st ->
     load_from_str (JObj members) o = Raise TypeError).
Proof.
  split.
  - intros Hextras. rewrite <- (load_Job_str j o). unfold Job_str.
    apply load_from_str_agree. intros k Hk.
    apply lookup_loads_frame.
    + intros Hin. apply in_map_iff in Hin as (kv & <- & Hkv).
      apply (Hextras kv); [apply in_or_app; left; exact Hkv|exact Hk].
    + intros Hin. apply in_map_iff in Hin as (kv & <- & Hkv).
      apply (Hextras kv); [apply in_or_app; right; exact Hkv|exact Hk].
  - intros members n st Hself Hs Hn. unfold load_from_str. cbv zeta.
    rewrite Hs, Hn. unfold Job_of_info. through_overrides.
    pose proof (lookup_members_key "self" members [] Hself) as Hsome.
    fold (loads members) in Hsome.
    destruct (lookup_field "self" (loads members)); [reflexivity|congruence].
Qed.

Lemma load_from_str_drops_obsolete_fields_witness :
  let j := Sample.job Status.done_syncing None in
  let before := [("sparv_server", JStr "old-host")] in
  let after := [("nohupfile", JStr "min-sb.out"); ("sparv_done", JNull)] in
  (forall kv, In kv (before ++ after)%list -> ~ In (fst kv) parameters) /\
  load_from_str (JObj (before ++ Job_info j ++ after)) no_overrides = Return j.
Proof.
  intros j before after.
  assert (H : forall kv, In kv (before ++ after)%list -> ~ In (fst kv) parameters).
  { intros kv [<-|[<-|[<-|[]]]] Hin; cbn in Hin;
      repeat (destruct Hin as [Hin|Hin]; [discriminate Hin|]); exact Hin. }
  split; [exact H|].
  exact (proj1 (load_from_str_drops_obsolete_fields j no_overrides before after) H).
Defined.

(** X15.  [load_from_str] raises [TypeError] on a record without a member
    [status], and on a record without a member [corpus_id] whose last
    member [status] is the name of a member of [Status], whatever the
    caller supplies; and [AttributeError] on a text that is no object. *)
Theorem load_from_str_errors (o : Overrides) :
  (forall members : list (string * json),
     ~ In "status" (map fst members) ->
     load_from_str (JObj members) o = Raise TypeError) /\
  (forall (members : list (string * json)) (n : string) (st : Status.t),
     lookup_field "status" (loads members) = Some (JStr n) ->
     Status.of_name n = Some st ->
     ~ In "corpus_id" (map fst members) ->
     load_from_str (JObj members) o = Raise TypeError) /\
  (forall v : json,
     (forall members, v <> JObj members) ->
     load_from_str v o = Raise AttributeError).
Proof.
  split; [|split].
  - intros members H. unfold load_from_str. cbv zeta. unfold loads.
    rewrite lookup_members_other by exact H. reflexivity.
  - intros members n st Hs Hn Hc. unfold load_from_str. cbv zeta. rewrite Hs, Hn.
    assert (Hcorpus : lookup_field "corpus_id" (loads members) = None)
      by (unfold loads; rewrite lookup_members_other by exact Hc; reflexivity).
    unfold Job_of_info. through_overrides. rewrite Hcorpus.
    destruct (lookup_field "self" (loads members)); reflexivity.
  - intros v H. destruct v; try reflexivity. exfalso. exact (H fields eq_refl).
Qed.

Lemma load_from_str_errors_witness :
  let members := [("status", JStr "bogus"); ("pid", JNull); ("status", JStr "none")] in
  lookup_field "status" (loads members) = Some (JStr "none") /\
  Status.of_name "none" = Some Status.none /\
  ~ In "corpus_id" (map fst members) /\
  load_from_str (JObj members) no_overrides = Raise TypeError.
Proof.
  intros members.
  assert (Hs : lookup_field "status" (loads members) = Some (JStr "none"))
    by reflexivity.
  assert (Hn : Status.of_name "none" = Some Status.none) by reflexivity.
  assert (Hc : ~ In "corpus_id" (map fst members)).
  { cbn. intros Hin.
    repeat (destruct Hin as [Hin|Hin]; [discriminate Hin|]). exact Hin. }
  exact (conj Hs (conj Hn (conj Hc
    (proj1 (proj2 (load_from_str_errors no_overrides)) members _ _ Hs Hn Hc)))).
Defined.

(** ** The store *)

Lemma remove_returns_deleted (env : Env) (abort : bool) (j j' : Job) (w w' : World) :
  remove env abort j w = (Return tt, j', w') ->
  cache w' !! corpus_id j = None /\ backup w' !! corpus_id j = None.
Proof.
  unfold remove. run.
  assert (Hdel : forall (jx : Job) (wx : World),
    (Return tt, jx,
     record (Removed (corpus_id j))
       (unlink_backup (corpus_id j) (cache_remove_job (corpus_id j) wx)))
    = (Return tt, j', w') ->
    cache w' !! corpus_id j = None /\ backup w' !! corpus_id j = None).
  { intros jx wx [= _ <-]. cbn. split; apply lookup_delete_eq. }
  destruct (Status.eqb (status j) Status.annotating); [|apply Hdel].
  destruct abort; [|discriminate].
  destruct (abort_sparv env j w) as [[[[]|e] jx] wx]; [apply Hdel|].
  destruct (is_ProcessNotRunning e); [apply Hdel|discriminate].
Qed.

(** X17.  After a [remove] that returns, nothing is stored for the corpus,
    and [get_job] makes a new job for it: status none, no process id, no
    times, a measured duration of 0, and the lists and metadata that the
    caller supplies. *)
Theorem get_job_after_remove (env : Env) (abort : bool) (j j' : Job) (w w' : World)
    (o : Overrides) :
  remove env abort j w = (Return tt, j', w') ->
  persisted w' (corpus_id j) = None /\
  get_job w' (corpus_id j) o
  = Return (mkJob (corpus_id j) (o_user_id o) (o_contact o) Status.none None None
              None None (default [] (o_sparv_exports o)) (default [] (o_files o))
              (default [] (o_available_files o)) (o_install_scrambled o) false 0 "0%").
Proof.
  intros H. destruct (remove_returns_deleted env abort j j' w w' H) as [Hc _].
  unfold persisted, get_job, cache_get_job. rewrite Hc. split; reflexivity.
Qed.

Lemma get_job_after_remove_witness :
  let env := Sample.env_of (Sample.said 0 EmptyString EmptyString) false 0 in
  let j := Sample.job Status.annotating (Some 4242) in
  let r := remove env true j (Sample.holding j) in
  r = (Return tt, snd (fst r), snd r) /\
  persisted (snd r) "demo-1" = None /\
  get_job (snd r) "demo-1" no_overrides
  = Return (mkJob "demo-1" None None Status.none None None None None [] [] []
              None false 0 "0%").
Proof.
  intros env j r.
  assert (H : r = (Return tt, snd (fst r), snd r)) by (vm_compute; reflexivity).
  split; [exact H|].
  exact (get_job_after_remove env true j _ _ _ no_overrides H).
Defined.

(** ** Aborting twice, polling a finished job *)

(** X18.  An abort that has returned leaves a job that cannot be aborted
    again: a second [abort_sparv] raises [ProcessNotRunning] and changes
    neither the job nor the world. *)
Theorem abort_sparv_twice (env : Env) (j j' : Job) (w w' : World) :
  abort_sparv env j w = (Return tt, j', w') ->
  forall (env' : Env) (w2 : World),
  exists msg : string,
    abort_sparv env' j' w2 = (Raise (ProcessNotRunning msg), j', w2).
Proof.
  intros H env' w2. destruct (abort_sparv_returns env j j' w w' H) as [_ Hs].
  rewrite abort_sparv_eq, Hs. eexists. reflexivity.
Qed.

Lemma abort_sparv_twice_witness :
  let env := Sample.env_of (Sample.said 0 EmptyString EmptyString) false 0 in
  let j := Sample.job Status.annotating (Some 4242) in
  let r := abort_sparv env j (Sample.holding j) in
  r = (Return tt, snd (fst r), snd r) /\
  exists msg : string,
    abort_sparv env (snd (fst r)) (snd r)
    = (Raise (ProcessNotRunning msg), snd (fst r), snd r).
Proof.
  intros env j r.
  assert (H : r = (Return tt, snd (fst r), snd r)) by (vm_compute; reflexivity).
  split; [exact H|].
  exact (abort_sparv_twice env j _ _ _ H env (snd r)).
Defined.

(** X19.  [process_running] leaves a job alone that is done processing,
    has no process id recorded, and whose output still parses to [100%]:
    it returns [False] with the job as [get_output] left it and saves
    nothing.  When the output of such a job no longer parses to [100%]
    (a lost or emptied output file), the status becomes error. *)
Theorem process_running_on_finished_job (env : Env) (j j1 : Job) (w w1 : World)
    (out : string * string * string) :
  Status.is_done_processing (status j) = true ->
  pid_recorded (pid j) = false ->
  get_output env j w = (Return out, j1, w1) ->
  (progress_output j1 = "100%" ->
   process_running env j w = (Return false, j1, w1)) /\
  (progress_output j1 <> "100%" ->
   process_running env j w
   = (Return false, with_status Status.error j1,
      stored (with_status Status.error j1) w1)).
Proof.
  intros Hdone Hpid Hout.
  destruct (get_output_frame env j j1 w w1 _ Hout) as [Hj1 _].
  assert (Hstatus : status j1 = status j) by (rewrite Hj1; destruct j; reflexivity).
  unfold process_running. run. rewrite (probe_no_pid env j w Hpid). run.
  rewrite Hout. run. split.
  - intros Hfull. rewrite Hfull. cbn [String.eqb Ascii.eqb Bool.eqb]. rewrite Hstatus.
    destruct (status j); vm_compute in Hdone; try discriminate Hdone; reflexivity.
  - intros Hpart. apply String.eqb_neq in Hpart. rewrite Hpart.
    rewrite set_status_eq, after_set_status_changes; [reflexivity|].
    rewrite Hstatus. destruct (status j); vm_compute in Hdone; congruence.
Qed.

Lemma process_running_on_finished_job_witness :
  let env := Sample.env_of (Sample.said 0 "12:00:09 PROGRESS 100%" EmptyString) false 0 in
  let j := Sample.job Status.done_annotating None in
  let j1 := with_progress_output "100%" j in
  let w1 := record (Ssh (CatNohup "demo-1")) (Sample.holding j) in
  Status.is_done_processing (status j) = true /\
  pid_recorded (pid j) = false /\
  get_output env j (Sample.holding j) = (Return (EmptyString, EmptyString, EmptyString), j1, w1) /\
  progress_output j1 = "100%" /\
  process_running env j (Sample.holding j) = (Return false, j1, w1).
Proof.
  intros env j j1 w1.
  assert (H1 : Status.is_done_processing (status j) = true) by reflexivity.
  assert (H2 : pid_recorded (pid j) = false) by reflexivity.
  assert (H3 : get_output env j (Sample.holding j)
               = (Return (EmptyString, EmptyString, EmptyString), j1, w1))
    by reflexivity.
  assert (H4 : progress_output j1 = "100%") by reflexivity.
  exact (conj H1 (conj H2 (conj H3 (conj H4
           (proj1 (process_running_on_finished_job env j j1 _ w1 _ H1 H2 H3) H4))))).
Defined.

(** ** Requirements of a corpus *)

Lemma existsb_name (config_file : string) (contents : list Content) :
  existsb (String.eqb config_file) (map c_name contents) = true <->
  exists i : Content, In i contents /\ c_name i = config_file.
Proof.
  rewrite existsb_exists. split.
  - intros (n & Hin & Heq). apply in_map_iff in Hin as (i & <- & Hi).
    apply String.eqb_eq in Heq. eauto.
  - intros (i & Hi & <-). exists (c_name i). split; [apply in_map, Hi|].
    apply String.eqb_refl.
Qed.

Lemma no_sources (source_dir : string) (contents : list Content) :
  (length (List.filter (fun i => Text.startswith source_dir (c_path i)) contents)
   =? 0)%nat = false <->
  exists i : Content, In i contents /\ Text.startswith source_dir (c_path i) = true.
Proof.
  rewrite Nat.eqb_neq. split.
  - intros H. destruct (List.filter _ contents) as [|i l] eqn:E; [contradiction H; reflexivity|].
    assert (Hin : In i (List.filter (fun i => Text.startswith source_dir (c_path i))
                          contents)) by (rewrite E; left; reflexivity).
    apply filter_In in Hin. eauto.
  - intros (i & Hi & Hs) Hlen. apply length_zero_iff_nil in Hlen.
    assert (Hin : In i (List.filter (fun i => Text.startswith source_dir (c_path i))
                          contents)) by (apply filter_In; auto).
    rewrite Hlen in Hin. destruct Hin.
Qed.

(** X20.  [check_requirements] looks for the config file first: when no
    entry of the corpus has its name, it raises after setting the status
    error, whatever sources there are (so also for an empty corpus); when
    the config file is there but no entry has a path that starts with the
    source directory, it raises after setting the status error; otherwise
    it returns and leaves the job and the world as they are. *)
Theorem check_requirements_cases (config_file source_dir : string)
    (contents : list Content) (j : Job) (w : World) :
  let has_config := exists i, In i contents /\ c_name i = config_file in
  let has_source :=
    exists i, In i contents /\ Text.startswith source_dir (c_path i) = true in
  (~ has_config ->
   check_requirements config_file source_dir contents j w
   = (Raise (Exception ("No config file provided for '" ++ corpus_id j ++ "'!")),
      with_status Status.error j, after_set_status Status.error j w)) /\
  (has_config -> ~ has_source ->
   check_requirements config_file source_dir contents j w
   = (Raise (Exception ("No input files provided for '" ++ corpus_id j ++ "'!")),
      with_status Status.error j, after_set_status Status.error j w)) /\
  (has_config -> has_source ->
   check_requirements config_file source_dir contents j w = (Return tt, j, w)) /\
  (status j <> Status.error ->
   persisted_status (after_set_status Status.error j w) (corpus_id j)
   = Some Status.error).
Proof.
  intros has_config has_source.
  pose proof (existsb_name config_file contents) as Hc.
  pose proof (no_sources source_dir contents) as Hs.
  fold has_config in Hc. fold has_source in Hs.
  assert (Hp : status j <> Status.error ->
               persisted_status (after_set_status Status.error j w) (corpus_id j)
               = Some Status.error).
  { intros Hne. apply persisted_status_after_set; [reflexivity|congruence]. }
  unfold check_requirements. run.
  destruct (existsb _ _) eqn:E1; cbn [negb].
  - destruct (_ =? 0)%nat eqn:E2.
    + repeat apply conj; [tauto| |intros _ Hx; apply Hs in Hx; congruence|exact Hp].
      intros _ _. rewrite set_status_eq. reflexivity.
    + repeat apply conj; [tauto|tauto| |exact Hp]. reflexivity.
  - assert (Hno : ~ has_config) by (intros Hx; apply Hc in Hx; congruence).
    repeat apply conj; [|tauto|tauto|exact Hp].
    intros _. rewrite set_status_eq. reflexivity.
Qed.

Lemma check_requirements_cases_witness :
  let contents := [mkContent "config.yaml" "config.yaml";
                   mkContent "source" "source"] in
  let j := Sample.job Status.none None in
  (exists i, In i contents /\ c_name i = "config.yaml") /\
  (exists i, In i contents /\ Text.startswith "source" (c_path i) = true) /\
  check_requirements "config.yaml" "source" contents j Sample.fresh
  = (Return tt, j, Sample.fresh).
Proof.
  intros contents j.
  assert (H1 : exists i, In i contents /\ c_name i = "config.yaml")
    by (eexists; split; [left; reflexivity|reflexivity]).
  assert (H2 : exists i, In i contents /\ Text.startswith "source" (c_path i) = true)
    by (eexists; split; [right; left; reflexivity|reflexivity]).
  exact (conj H1 (conj H2
    (proj1 (proj2 (proj2 (check_requirements_cases "config.yaml" "source" contents j
                            Sample.fresh))) H1 H2))).
Defined.

(** ** The answer of a route *)

Lemma lookup_after_kwargs (kwargs : list (string * json)) :
  List.NoDup (map fst kwargs) ->
  forall (res : list (string * json)) (k : string),
    lookup_field k (fold_left response_step kwargs res)
    = match List.find (fun kv => String.eqb (fst kv) k) kwargs with
      | Some kv => if is_empty_text (snd kv) then lookup_field k res else Some (snd kv)
      | None => lookup_field k res
      end.
Proof.
  induction kwargs as [|[k0 v0] rest IH]; intros Hnd res k; [reflexivity|].
  cbn [map fst] in Hnd. inversion Hnd as [|? ? Hnotin Hrest]; subst.
  cbn [fold_left List.find fst snd]. rewrite (IH Hrest).
  destruct (String.eqb k0 k) eqn:E.
  - apply String.eqb_eq in E. subst k0.
    assert (Hnone : List.find (fun kv => String.eqb (fst kv) k) rest = None).
    { destruct (List.find _ rest) as [kv|] eqn:F; [|reflexivity].
      apply find_some in F as [Hin Heq]. apply String.eqb_eq in Heq.
      exfalso. apply Hnotin. rewrite <- Heq. apply in_map, Hin. }
    rewrite Hnone. unfold response_step. cbn [fst snd].
    destruct (is_empty_text v0); [reflexivity|apply lookup_set_field_eq].
  - assert (Hsame : lookup_field k (response_step res (k0, v0)) = lookup_field k res).
    { unfold response_step. cbn [fst snd].
      destruct (is_empty_text v0); [reflexivity|].
      apply lookup_set_field_ne. apply String.eqb_neq, E. }
    rewrite Hsame. reflexivity.
Qed.

(** X21.  The object of [utils.response]: a key that is no keyword
    argument has the value of the answer without keyword arguments, where
    [status] is [error] exactly when [err] is set and [message] is the
    message; a keyword argument with another value than the empty text is
    in the object with that value, also under the keys [status] and
    [message]; a keyword argument with the empty text changes nothing. *)
Theorem response_fields (msg : string) (err : bool)
    (kwargs : list (string * json)) :
  List.NoDup (map fst kwargs) ->
  lookup_field "status" (response msg err [])
  = Some (JStr (if err then "error" else "success")) /\
  lookup_field "message" (response msg err []) = Some (JStr msg) /\
  (forall k, k <> "status" -> k <> "message" ->
             lookup_field k (response msg err []) = None) /\
  (forall k, ~ In k (map fst kwargs) ->
             lookup_field k (response msg err kwargs)
             = lookup_field k (response msg err [])) /\
  (forall k v, In (k, v) kwargs ->
               lookup_field k (response msg err kwargs)
               = if is_empty_text v then lookup_field k (response msg err [])
                 else Some v).
Proof.
  intros Hnd.
  assert (Hfind : forall k v, In (k, v) kwargs ->
            List.find (fun kv => String.eqb (fst kv) k) kwargs = Some (k, v)).
  { clear msg err. induction kwargs as [|[k0 v0] rest IH]; intros k v Hin; [destruct Hin|].
    cbn [map fst] in Hnd. inversion Hnd as [|? ? Hnotin Hrest]; subst.
    cbn [List.find fst]. destruct Hin as [Heq|Hin].
    - inversion Heq; subst. rewrite String.eqb_refl. reflexivity.
    - destruct (String.eqb k0 k) eqn:E; [|apply (IH Hrest), Hin].
      apply String.eqb_eq in E. subst k0. exfalso. apply Hnotin.
      change k with (fst (k, v)). apply in_map, Hin. }
  repeat apply conj.
  - reflexivity.
  - reflexivity.
  - intros k H1 H2. cbn [response fold_left lookup_field].
    assert (E1 : String.eqb "status" k = false) by (apply String.eqb_neq; congruence).
    assert (E2 : String.eqb "message" k = false) by (apply String.eqb_neq; congruence).
    rewrite E1, E2. reflexivity.
  - intros k Hnot. unfold response. fold response_step.
    rewrite (lookup_after_kwargs kwargs Hnd).
    destruct (List.find _ kwargs) as [kv|] eqn:F; [|reflexivity].
    apply find_some in F as [Hin Heq]. apply String.eqb_eq in Heq.
    exfalso. apply Hnot. rewrite <- Heq. apply in_map, Hin.
  - intros k v Hin. unfold response. fold response_step.
    rewrite (lookup_after_kwargs kwargs Hnd), (Hfind k v Hin). reflexivity.
Qed.

Lemma response_fields_witness :
  let kwargs := [("job_status", JStr "done"); ("warnings", JStr EmptyString);
                 ("message", JStr "changed")] in
  List.NoDup (map fst kwargs) /\
  lookup_field "job_status" (response "ok" false kwargs) = Some (JStr "done") /\
  lookup_field "warnings" (response "ok" false kwargs) = None /\
  lookup_field "message" (response "ok" false kwargs) = Some (JStr "changed").
Proof.
  intros kwargs.
  assert (Hnd : List.NoDup (map fst kwargs)).
  { repeat constructor; cbn; intros H;
      repeat (destruct H as [H|H]; [discriminate H|]); exact H. }
  pose proof (response_fields "ok" false kwargs Hnd) as (_ & _ & _ & _ & H).
  exact (conj Hnd
    (conj (H "job_status" (JStr "done") (or_introl eq_refl))
       (conj (H "warnings" (JStr EmptyString) (or_intror (or_introl eq_refl)))
          (H "message" (JStr "changed")
             (or_intror (or_intror (or_introl eq_refl))))))).
Defined.

(** ** The listings of the default job *)

Lemma span_parts (p : ascii -> bool) (s a b : string) :
  Text.span p s = (a, b) ->
  s = a ++ b /\ every p a = true /\
  match b with String c _ => p c = false | EmptyString => True end.
Proof.
  revert a b. induction s as [|c r IH]; intros a b H; cbn [Text.span] in H.
  - inversion H; subst. repeat split.
  - destruct (p c) eqn:Hc.
    + destruct (Text.span p r) as [a' b'] eqn:E. inversion H; subst.
      destruct (IH a' b eq_refl) as (Hr & Ha & Hb).
      repeat split; [rewrite Hr; reflexivity|cbn; rewrite Hc, Ha; reflexivity|exact Hb].
    + inversion H; subst. repeat split. exact Hc.
Qed.

Lemma not_empty (s : string) : Text.is_empty s = false -> s <> EmptyString.
Proof. destruct s; [discriminate|discriminate]. Qed.

Lemma append_empty (s : string) : s ++ EmptyString = s.
Proof.
  induction s as [|c r IH]; [reflexivity|].
  change (String c r ++ EmptyString) with (String c (r ++ EmptyString)).
  rewrite IH. reflexivity.
Qed.

Lemma gap_then_token_shape (s token : string) :
  gap_then_token s = Some token ->
  exists gap, s = gap ++ token /\ gap <> EmptyString /\
              every Text.is_space gap = true /\
              token <> EmptyString /\ every not_space token = true.
Proof.
  unfold gap_then_token.
  destruct (Text.span Text.is_space s) as [gap rest] eqn:E1.
  destruct (Text.span not_space rest) as [tok tail] eqn:E2.
  destruct (Text.is_empty gap) eqn:Hg; [discriminate|].
  destruct (Text.is_empty tok) eqn:Ht; [discriminate|].
  destruct tail; [|discriminate]. cbn [Text.is_empty].
  intros H. inversion H; subst tok.
  apply span_parts in E1 as (Hs & Hgap & _).
  apply span_parts in E2 as (Hr & Htok & _).
  exists gap. repeat split; auto using not_empty.
  rewrite Hs, Hr. f_equal. apply append_empty.
Qed.

Lemma name_then_code_shape (line name code_ : string) :
  name_then_code line = Some (name, code_) ->
  exists gap, line = name ++ gap ++ code_ /\ name <> EmptyString /\
              gap <> EmptyString /\ every Text.is_space gap = true /\
              code_ <> EmptyString /\ every not_space code_ = true.
Proof.
  revert name. induction line as [|c rest IH]; intros name H; [discriminate H|].
  cbn [name_then_code] in H. destruct (gap_then_token rest) as [token|] eqn:E.
  - inversion H; subst. apply gap_then_token_shape in E as (gap & Hs & Hrest).
    exists gap. split; [rewrite Hs; reflexivity|]. split; [discriminate|exact Hrest].
  - destruct (name_then_code rest) as [[name' token]|] eqn:E'; [|discriminate H].
    inversion H; subst. destruct (IH name' eq_refl) as (gap & Hs & _ & Hrest).
    exists gap. split; [rewrite Hs; reflexivity|]. split; [discriminate|exact Hrest].
Qed.

Lemma languages_of_read (lines all : list string) (acc : list Language) :
  (forall line, In line lines -> In line all) ->
  List.Forall (read_from all) acc ->
  List.Forall (read_from all) (languages_of lines acc).
Proof.
  revert acc. induction lines as [|line rest IH]; intros acc Hsub Hacc; [exact Hacc|].
  cbn [languages_of].
  destruct (Text.startswith "Supported language varieties" line); [exact Hacc|].
  assert (Hrest : forall l, In l rest -> In l all) by (intros l Hl; apply Hsub; right; exact Hl).
  destruct (name_then_code line) as [[name code_]|] eqn:E; [|apply IH; assumption].
  apply IH; [exact Hrest|]. apply List.Forall_app. split; [exact Hacc|].
  constructor; [|constructor].
  apply name_then_code_shape in E as (gap & Hline & Hshape).
  exists line, gap. split; [apply Hsub; left; reflexivity|]. split; [exact Hline|exact Hshape].
Qed.

Lemma languages_of_break (before after : list string) (stop : string)
    (acc : list Language) :
  Text.startswith "Supported language varieties" stop = true ->
  languages_of (before ++ stop :: after)%list acc = languages_of before acc.
Proof.
  intros Hstop. revert acc. induction before as [|line rest IH]; intros acc.
  - cbn [app languages_of]. rewrite Hstop. reflexivity.
  - cbn [app languages_of].
    destruct (Text.startswith "Supported language varieties" line); [reflexivity|].
    destruct (name_then_code line) as [[name code_]|]; apply IH.
Qed.

(** X22.  [DefaultJob.list_languages]: output on the error stream of the
    first command raises an [Exception] with that output; after a quiet
    first command, another return code than 0 of [sparv languages] raises
    a [JobError] with its error output; otherwise the method returns, and
    every entry was read from one of the lines after the first as a name,
    white space and a code, the name and the code not empty and the code
    free of white space; a line that starts with "Supported language
    varieties" ends the listing: the lines from it on give nothing. *)
Theorem list_languages_cases (host : DefaultHost) (lang : string) :
  let made := host [] (WriteDefaultConfig lang) in
  let ran := host [WriteDefaultConfig lang] (SparvLanguages lang) in
  let lines :=
    but_first (List.filter truthy (map Text.strip (Text.split_lines (stdout ran)))) in
  (stderr made <> EmptyString ->
   list_languages host lang
   = inl (Exception ("Failed to list languages! " ++ stderr made))) /\
  (stderr made = EmptyString -> returncode ran <> 0 ->
   list_languages host lang
   = inl (JobError ("Failed to run Sparv! " ++ stderr ran))) /\
  (stderr made = EmptyString -> returncode ran = 0 ->
   exists languages,
     list_languages host lang = inr languages /\
     List.Forall (read_from lines) languages /\
     forall before stop after,
       lines = (before ++ stop :: after)%list ->
       Text.startswith "Supported language varieties" stop = true ->
       languages = languages_of before []).
Proof.
  intros made ran lines. unfold list_languages. fold made. fold ran. fold lines.
  repeat apply conj.
  - intros Hne. destruct (stderr made); [contradiction Hne; reflexivity|reflexivity].
  - intros -> Hrc. cbn [truthy Text.is_empty negb].
    destruct (returncode ran =? 0) eqn:E; [apply Z.eqb_eq in E; contradiction|reflexivity].
  - intros -> Hrc. cbn [truthy Text.is_empty negb]. rewrite Hrc. cbn [Z.eqb negb].
    exists (languages_of lines []). split; [reflexivity|]. split.
    + apply languages_of_read; [auto|constructor].
    + intros before stop after -> Hstop. apply languages_of_break, Hstop.
Qed.

Lemma list_languages_cases_witness :
  let out :=
    "Supported languages:" ++ Text.newline ++
    "Old Swedish    swe-1800" ++ Text.newline ++
    "English        eng" ++ Text.newline ++ Text.newline ++
    "Supported language varieties:" ++ Text.newline ++
    "Swedish        swe: basic" in
  let host : DefaultHost :=
    fun _ c => match c with
               | SparvLanguages _ => mkProc 0 out EmptyString
               | _ => mkProc 0 EmptyString EmptyString
               end in
  stderr (host [] (WriteDefaultConfig "swe")) = EmptyString /\
  returncode (host [WriteDefaultConfig "swe"] (SparvLanguages "swe")) = 0 /\
  list_languages host "swe"
  = inr [mkLanguage "Old Swedish" "swe-1800"; mkLanguage "English" "eng"] /\
  exists languages,
    list_languages host "swe" = inr languages /\
    List.Forall
      (read_from
         (but_first
            (List.filter truthy
               (map Text.strip
                  (Text.split_lines
                     (stdout
                        (host [WriteDefaultConfig "swe"] (SparvLanguages "swe"))))))))
      languages.
Proof.
  intros out host.
  assert (H1 : stderr (host [] (WriteDefaultConfig "swe")) = EmptyString)
    by reflexivity.
  assert (H2 : returncode (host [WriteDefaultConfig "swe"] (SparvLanguages "swe")) = 0)
    by reflexivity.
  assert (H3 : list_languages host "swe"
               = inr [mkLanguage "Old Swedish" "swe-1800"; mkLanguage "English" "eng"])
    by (vm_compute; reflexivity).
  destruct (proj2 (proj2 (list_languages_cases host "swe")) H1 H2)
    as (languages & Heq & Hread & _).
  exact (conj H1 (conj H2 (conj H3 (ex_intro _ languages (conj Heq Hread))))).
Defined.

Lemma last_char_not_empty (s : string) :
  s <> EmptyString -> Text.last_char s <> EmptyString.
Proof.
  induction s as [|c r IH]; intros H; [contradiction H; reflexivity|].
  cbn [Text.last_char]. destruct r as [|c' r']; [discriminate|].
  apply IH. discriminate.
Qed.

Lemma export_then_description_shape (line name description : string) :
  export_then_description line = Some (name, description) ->
  name <> EmptyString /\ every not_space name = true /\
  description <> EmptyString /\ Text.startswith name line = true.
Proof.
  unfold export_then_description.
  destruct (Text.span not_space line) as [token after_token] eqn:E1.
  destruct (Text.span Text.is_space after_token) as [gap rest] eqn:E2.
  destruct (Text.is_empty token) eqn:Ht; [discriminate|].
  destruct (Text.is_empty gap) eqn:Hg; [discriminate|].
  apply span_parts in E1 as (Hline & Htoken & _).
  assert (Hstart : Text.startswith token line = true).
  { rewrite Hline. clear. induction token as [|c r IH]; [reflexivity|].
    change (String c r ++ after_token) with (String c (r ++ after_token)).
    cbn [Text.startswith]. rewrite Ascii.eqb_refl, IH. reflexivity. }
  destruct (Text.is_empty rest) eqn:Hr; cbn [negb].
  - destruct gap as [|c1 [|c2 g]]; try discriminate.
    pose proof (last_char_not_empty (String c1 (String c2 g))) as Hlast.
    intros H. inversion H; subst. repeat split; auto using not_empty.
    all: try exact (Hlast ltac:(discriminate)).
  - intros H. inversion H; subst. repeat split; auto using not_empty.
Qed.

Lemma extend_last_some (exports : list Export) (text : string) :
  exports <> [] ->
  exists exports', extend_last exports text = Some exports' /\
                   map e_export exports' = map e_export exports.
Proof.
  induction exports as [|e rest IH]; intros Hne; [contradiction Hne; reflexivity|].
  destruct rest as [|e' rest'].
  - eexists. split; reflexivity.
  - destruct IH as (rest2 & Heq & Hnames); [discriminate|].
    exists (e :: rest2). split.
    + change (extend_last (e :: e' :: rest') text)
        with (match extend_last (e' :: rest') text with
              | Some r => Some (e :: r) | None => None end).
      rewrite Heq. reflexivity.
    + cbn [map]. rewrite Hnames. reflexivity.
Qed.

(** The name of an entry of the exports: a token that is none of the
    four excluded names. *)
Lemma exports_of_names (lines : list string) (P : string -> Prop) :
  (forall line name description,
     In line lines ->
     export_then_description (Text.strip line) = Some (name, description) ->
     listed_export name = true -> P name) ->
  forall acc exports,
    List.Forall P (map e_export acc) ->
    exports_of lines acc = Some exports ->
    List.Forall P (map e_export exports).
Proof.
  induction lines as [|line rest IH]; intros Hp acc exports Hacc H.
  - inversion H; subst. exact Hacc.
  - assert (Hrest : forall l n d, In l rest ->
              export_then_description (Text.strip l) = Some (n, d) ->
              listed_export n = true -> P n)
      by (intros l n d Hl; apply Hp; right; exact Hl).
    cbn [exports_of] in H. destruct (Text.startswith "    " line).
    + destruct acc as [|e acc'] eqn:Eacc; [discriminate H|].
      destruct (extend_last_some (e :: acc') (Text.strip line)) as (acc2 & Heq & Hnames);
        [discriminate|].
      rewrite Heq in H. apply (IH Hrest acc2 exports); [|exact H].
      rewrite Hnames. exact Hacc.
    + destruct (export_then_description (Text.strip line)) as [[name description]|] eqn:E;
        [|apply (IH Hrest acc exports Hacc H)].
      destruct (listed_export name) eqn:El; [|apply (IH Hrest acc exports Hacc H)].
      apply (IH Hrest (acc ++ [mkExport name description])%list exports); [|exact H].
      rewrite map_app. apply List.Forall_app. split; [exact Hacc|].
      constructor; [|constructor]. apply (Hp line name description); auto.
      left. reflexivity.
Qed.

Lemma exports_of_nonempty (lines : list string) (acc : list Export) :
  acc <> [] -> exists exports, exports_of lines acc = Some exports.
Proof.
  revert acc. induction lines as [|line rest IH]; intros acc Hne; [eexists; reflexivity|].
  cbn [exports_of]. destruct (Text.startswith "    " line).
  - destruct (extend_last_some acc (Text.strip line) Hne) as (acc2 & Heq & Hnames).
    rewrite Heq. apply IH. intros ->. destruct acc; [contradiction Hne; reflexivity|].
    discriminate Hnames.
  - assert (Hgrown : forall e, (acc ++ [e])%list <> [])
      by (intros e Hx; apply app_eq_nil in Hx as [_ Hx]; discriminate Hx).
    destruct (export_then_description (Text.strip line)) as [[name description]|];
      [|apply IH, Hne].
    destruct (listed_export name); [apply IH, Hgrown|apply IH, Hne].
Qed.

Lemma exports_of_fails (lines : list string) :
  exports_of lines [] = None <-> continuation_first lines.
Proof.
  induction lines as [|line rest IH].
  - split; [discriminate|]. intros (before & l & after & Heq & _).
    destruct before; discriminate Heq.
  - cbn [exports_of]. destruct (Text.startswith "    " line) eqn:Hc.
    + cbn [extend_last]. split; [|reflexivity]. intros _.
      exists [], line, rest. repeat split; [exact Hc|constructor].
    + assert (Hshift : continuation_first rest -> adds_export line = false ->
                       continuation_first (line :: rest)).
      { intros (before & l & after & -> & Hl & Hbefore) Hadds.
        exists (line :: before), l, after. repeat split; [exact Hl|].
        constructor; [split; assumption|exact Hbefore]. }
      assert (Hback : continuation_first (line :: rest) ->
                      adds_export line = false /\ continuation_first rest).
      { intros (before & l & after & Heq & Hl & Hbefore).
        destruct before as [|b before'].
        - inversion Heq; subst. congruence.
        - inversion Heq; subst. inversion Hbefore as [|? ? [_ Hadds] Hrest]; subst.
          split; [exact Hadds|]. exists before', l, after. repeat split; assumption. }
      unfold adds_export in Hshift, Hback.
      destruct (export_then_description (Text.strip line)) as [[name description]|];
        [|split; [intros H; apply Hshift; [apply IH, H|reflexivity]|
                  intros H; apply IH, Hback, H]].
      destruct (listed_export name);
        [|split; [intros H; apply Hshift; [apply IH, H|reflexivity]|
                  intros H; apply IH, Hback, H]].
      split.
      * intros H. destruct (exports_of_nonempty rest ([] ++ [mkExport name description])%list)
          as (r & Hr); [discriminate|]. congruence.
      * intros H. apply Hback in H as [Hx _]. discriminate Hx.
Qed.

(** X23.  [DefaultJob.list_exports]: output on the error stream of the
    first command raises an [Exception] with that output; after a quiet
    first command, another return code than 0 of [sparv run -l] raises a
    [JobError] with its error output; otherwise, over the lines that are
    not blank, without the first and the last, the method fails with an
    [IndexError] exactly when a line that starts with four spaces comes
    before any line that gives an entry, and in a list that it returns
    every entry has a name that is not empty, holds no white space and is
    none of the four excluded names. *)
Theorem list_exports_cases (host : DefaultHost) (lang : string) :
  let made := host [] (WriteDefaultConfig lang) in
  let ran := host [WriteDefaultConfig lang] (SparvRunList lang) in
  let lines :=
    but_first_and_last
      (List.filter (fun line => truthy (Text.strip line))
         (Text.split_lines (stdout ran))) in
  (stderr made <> EmptyString ->
   list_exports host lang
   = inl (Raised (Exception ("Failed to list exports! " ++ stderr made)))) /\
  (stderr made = EmptyString -> returncode ran <> 0 ->
   list_exports host lang
   = inl (Raised (JobError ("Failed to run Sparv! " ++ stderr ran)))) /\
  (stderr made = EmptyString -> returncode ran = 0 ->
   (list_exports host lang = inl IndexError <-> continuation_first lines) /\
   (forall exports,
      list_exports host lang = inr exports ->
      exports_of lines [] = Some exports /\
      List.Forall
        (fun e => listed_export (e_export e) = true /\
                  e_export e <> EmptyString /\
                  every not_space (e_export e) = true)
        exports)).
Proof.
  intros made ran lines. unfold list_exports. fold made. fold ran. fold lines.
  repeat apply conj.
  - intros Hne. destruct (stderr made); [contradiction Hne; reflexivity|reflexivity].
  - intros -> Hrc. cbn [truthy Text.is_empty negb].
    destruct (returncode ran =? 0) eqn:E; [apply Z.eqb_eq in E; contradiction|reflexivity].
  - intros -> Hrc. cbn [truthy Text.is_empty negb]. rewrite Hrc. cbn [Z.eqb negb].
    split.
    { rewrite <- exports_of_fails.
      destruct (exports_of lines []); split; congruence. }
    intros exports H.
    destruct (exports_of lines []) as [r|] eqn:E; [|discriminate H].
    inversion H; subst r. split; [reflexivity|].
    apply List.Forall_map with (f := e_export)
      (P := fun n => listed_export n = true /\ n <> EmptyString /\
                     every not_space n = true).
    apply (exports_of_names lines _) with (acc := []); [|constructor|exact E].
    intros line name description _ Hm Hl.
    apply export_then_description_shape in Hm as (Hne & Hns & _).
    auto.
Qed.

Lemma list_exports_cases_witness :
  let out :=
    "The following export formats are available:" ++ Text.newline ++
    "xml_export:pretty      XML with one token per line" ++ Text.newline ++
    "                       and one sentence per block" ++ Text.newline ++
    Text.newline ++
    "Other                  formats for special use" ++ Text.newline ++
    "csv_export:csv         CSV" ++ Text.newline ++
    "Default: xml_export:pretty" in
  let host : DefaultHost :=
    fun _ c => match c with
               | SparvRunList _ => mkProc 0 out EmptyString
               | _ => mkProc 0 EmptyString EmptyString
               end in
  let exports :=
    [mkExport "xml_export:pretty"
       "XML with one token per line and one sentence per block";
     mkExport "csv_export:csv" "CSV"] in
  stderr (host [] (WriteDefaultConfig "swe")) = EmptyString /\
  returncode (host [WriteDefaultConfig "swe"] (SparvRunList "swe")) = 0 /\
  list_exports host "swe" = inr exports /\
  List.Forall
    (fun e => listed_export (e_export e) = true /\
              e_export e <> EmptyString /\
              every not_space (e_export e) = true)
    exports.
Proof.
  intros out host exports.
  assert (H1 : stderr (host [] (WriteDefaultConfig "swe")) = EmptyString)
    by reflexivity.
  assert (H2 : returncode (host [WriteDefaultConfig "swe"] (SparvRunList "swe")) = 0)
    by reflexivity.
  assert (H3 : list_exports host "swe" = inr exports) by (vm_compute; reflexivity).
  pose proof (proj2 (proj2 (proj2 (list_exports_cases host "swe")) H1 H2) exports H3)
    as Hnames.
  exact (conj H1 (conj H2 (conj H3 (proj2 Hnames)))).
Defined.
